(** * tkinter_opencv_video: the decoupled frame pipeline of [CV2Video]

    A shallow embedding of [src/tkinter_opencv_video.py].  Python integers
    are [Z]; Python floats are IEEE-754 binary64 values, taken from the
    executable specification [SpecFloat] of the Standard Library; a raised
    exception is a value of [result]; the pipe between the producer process
    and the controller is a FIFO list of messages. *)

From Stdlib Require Import ZArith List String Bool Lia.
From Stdlib Require Import Floats.SpecFloat.
Import ListNotations.
Local Open Scope Z_scope.

(** ** Exceptions and fallible computations *)

Inductive exn : Type :=
| ZeroDivisionError
| OverflowError
| ValueError
| AttributeError
| BrokenPipeError
| Cv2Error.

Inductive result (A : Type) : Type :=
| Ok (a : A)
| Raise (e : exn).
Arguments Ok {A} a.
Arguments Raise {A} e.

Definition bind {A B : Type} (r : result A) (k : A -> result B) : result B :=
  match r with
  | Ok a => k a
  | Raise e => Raise e
  end.

Notation "x <- c1 ;; c2" := (bind c1 (fun x => c2))
  (at level 61, c1 at next level, right associativity).

Definition succeeds {A : Type} (r : result A) : bool :=
  match r with Ok _ => true | Raise _ => false end.

(** ** Python numbers *)

Module Py.

(** Python's [float] is binary64: 53 bits of precision, exponents below
    1024. *)
Definition prec : Z := 53.
Definition emax : Z := 1024.
Definition float : Type := spec_float.

Definition is_zero (x : float) : bool :=
  match x with S754_zero _ => true | _ => false end.

Definition is_infinite (x : float) : bool :=
  match x with S754_infinity _ => true | _ => false end.

(** A numeric Python value, as the operands of [or], [/] and [*] in the
    source are. *)
Inductive num : Type :=
| Int (z : Z)
| Float (x : float).

(** The integer [z] as an unrounded binary float. *)
Definition exact (z : Z) : float :=
  match z with
  | Z0 => S754_zero false
  | Zpos p => S754_finite false p 0
  | Zneg p => S754_finite true p 0
  end.

(** [float(z)]: the nearest double, ties to even; [OverflowError] when
    [z] is too large for a double. *)
Definition int_to_float (z : Z) : result float :=
  let x := binary_normalize prec emax z 0 false in
  if is_infinite x then Raise OverflowError else Ok x.

(** [a / b] on two integers: the correctly rounded quotient. *)
Definition int_truediv (a b : Z) : result float :=
  if b =? 0 then Raise ZeroDivisionError
  else
    let q := SFdiv prec emax (exact a) (exact b) in
    if is_infinite q then Raise OverflowError else Ok q.

(** [x / y] on two floats. *)
Definition float_truediv (x y : float) : result float :=
  if is_zero y then Raise ZeroDivisionError else Ok (SFdiv prec emax x y).

(** [a / b] on numbers; an integer operand of a float is converted. *)
Definition truediv (a b : num) : result float :=
  match a, b with
  | Int x, Int y => int_truediv x y
  | Int x, Float y => x' <- int_to_float x ;; float_truediv x' y
  | Float x, Int y => y' <- int_to_float y ;; float_truediv x y'
  | Float x, Float y => float_truediv x y
  end.

(** [a * x] with [a] an integer and [x] a float. *)
Definition int_mul_float (a : Z) (x : float) : result float :=
  a' <- int_to_float a ;; Ok (SFmul prec emax a' x).

Definition add (x y : float) : float := SFadd prec emax x y.
Definition sub (x y : float) : float := SFsub prec emax x y.
Definition eqb (x y : float) : bool := SFeqb x y.
Definition ltb (x y : float) : bool := SFltb x y.

(** [x > 0] with the integer literal [0]. *)
Definition gt0 (x : float) : bool := SFltb (S754_zero false) x.

(** Truth value of a number: zero is false, everything else (NaN too) is
    true. *)
Definition truthy (v : num) : bool :=
  match v with
  | Int z => negb (z =? 0)
  | Float x => negb (is_zero x)
  end.

(** [a or b]. *)
Definition or_ (a b : num) : num := if truthy a then a else b.

(** [math.ceil(x)]: the least integer not below [x]; [ValueError] on NaN,
    [OverflowError] on an infinity. *)
Definition math_ceil (x : float) : result Z :=
  match x with
  | S754_zero _ => Ok 0
  | S754_nan => Raise ValueError
  | S754_infinity _ => Raise OverflowError
  | S754_finite s m e =>
      let v := cond_Zopp s (Zpos m) in
      Ok (if 0 <=? e then v * 2 ^ e else - ((- v) / 2 ^ (- e)))
  end.

End Py.

(** ** Frames, geometry and images *)

(** A decoded frame: [shape = (rows, cols, ...)]; [pixels] identifies the
    raster contents. *)
Record Frame : Type := mkFrame {
  rows : Z;
  cols : Z;
  pixels : nat
}.

(** What the container widget answers to [winfo_width()] and
    [winfo_height()]. *)
Record Container : Type := mkContainer {
  winfo_width : Z;
  winfo_height : Z
}.

(** [_get_optimal_size], lines 143-153. *)
Definition _get_optimal_size (container : Container) (_frame : Frame)
  : result (Z * Z) :=
  let max_width := winfo_width container in
  let max_height := winfo_height container in
  video_aspect_ratio <- Py.int_truediv (cols _frame) (rows _frame) ;;
  target_aspect_ratio <- Py.int_truediv max_width max_height ;;
  if Py.eqb video_aspect_ratio target_aspect_ratio then
    Ok (max_width, max_height)
  else if Py.ltb video_aspect_ratio target_aspect_ratio then
    x <- Py.int_mul_float max_height video_aspect_ratio ;;
    w <- Py.math_ceil x ;;
    Ok (w, max_height)
  else
    y <- Py.truediv (Py.Int max_width) (Py.Float video_aspect_ratio) ;;
    h <- Py.math_ceil y ;;
    Ok (max_width, h).

(** What [_update_image] hands to the widget: the frame it was made from,
    whether it was mirrored, and the size it was resampled to. *)
Record Image : Type := mkImage {
  source_frame : Frame;
  mirrored : bool;
  size : Z * Z
}.

(** The widget as the controller uses it: its geometry, the image it
    currently shows and the virtual events generated on it. *)
Record Widget : Type := mkWidget {
  geometry : Container;
  image : option Image;
  events : list string
}.

Definition configure (w : Widget) (img : option Image) : Widget :=
  mkWidget (geometry w) img (events w).

Definition event_generate (w : Widget) (sequence : string) : Widget :=
  mkWidget (geometry w) (image w) (events w ++ [sequence]).

(** ** The capture backend *)

Inductive Source : Type :=
| Filename (name : string)
| Index (i : Z).

Definition is_str (s : Source) : bool :=
  match s with Filename _ => true | Index _ => false end.

Inductive CapProp : Type :=
| CAP_PROP_FRAME_WIDTH
| CAP_PROP_FRAME_HEIGHT
| CAP_PROP_POS_FRAMES.

(** What the backend holds for every source: the frames it yields in
    order and its nominal frame rate. *)
Record Backend : Type := mkBackend {
  stream : Source -> Z -> list Frame;
  nominal_fps : Source -> Z -> Py.float
}.

(** An open [cv2.VideoCapture]: the properties set on it so far, in order,
    the frames it has still to deliver and its frame rate. *)
Record Capture : Type := mkCapture {
  settings : list (CapProp * Z);
  remaining : list Frame;
  fps : Py.float
}.

Definition VideoCapture (backend : Backend) (src : Source) (apiPreference : Z)
  : Capture :=
  mkCapture [] (stream backend src apiPreference)
            (nominal_fps backend src apiPreference).

(** [capture.set(prop, v)]: the frame position skips [v] frames, the
    requested size is only recorded. *)
Definition capture_set (c : Capture) (prop : CapProp) (v : Z) : Capture :=
  match prop with
  | CAP_PROP_POS_FRAMES =>
      mkCapture (settings c ++ [(prop, v)]) (skipn (Z.to_nat v) (remaining c)) (fps c)
  | _ => mkCapture (settings c ++ [(prop, v)]) (remaining c) (fps c)
  end.

(** [capture.read()]: [(True, frame)] is [Some frame], [(False, None)] is
    [None]. *)
Definition capture_read (c : Capture) : option Frame * Capture :=
  match remaining c with
  | [] => (None, c)
  | f :: rest => (Some f, mkCapture (settings c) rest (fps c))
  end.

(** ** The controller object *)

(** A message on the pipe: a frame, or [None] for the end of the stream. *)
Definition Msg : Type := option Frame.

Inductive Connection : Type := ReadEnd | WriteEnd.

(** The arguments [__reduce__] hands to the constructor in the producer
    process; the container is always [None] there. *)
Record Pickled : Type := mkPickled {
  p_filename_or_index : Source;
  p_api_preference : Z;
  p_flipped : bool;
  p_width : option Z;
  p_height : option Z;
  p_use_fps_delay : bool;
  p_frame_number : Z
}.

(** A started [multiprocessing.Process]: the pickled object whose
    [_collect_frames] it runs, and the connection passed as argument. *)
Record Process : Type := mkProcess {
  target_self : Pickled;
  args : option Connection
}.

Record CV2Video : Type := mkCV2Video {
  container : option Widget;
  filename_or_index : Source;
  api_preference : Z;
  flipped : bool;
  width : option Z;
  height : option Z;
  use_fps_delay : bool;
  frame_number : Z;
  _frame_collector : option Process;
  _frame : option Frame;
  _image : option Image;
  _image_needs_update : bool;
  _frame_receiver : option Connection;
  _frame_sender : option Connection
}.

Definition set_container (self : CV2Video) (v : option Widget) : CV2Video :=
  mkCV2Video v (filename_or_index self) (api_preference self) (flipped self)
    (width self) (height self) (use_fps_delay self) (frame_number self)
    (_frame_collector self) (_frame self) (_image self)
    (_image_needs_update self) (_frame_receiver self) (_frame_sender self).

Definition set_frame_number (self : CV2Video) (v : Z) : CV2Video :=
  mkCV2Video (container self) (filename_or_index self) (api_preference self)
    (flipped self) (width self) (height self) (use_fps_delay self) v
    (_frame_collector self) (_frame self) (_image self)
    (_image_needs_update self) (_frame_receiver self) (_frame_sender self).

Definition set_frame_collector (self : CV2Video) (v : option Process) : CV2Video :=
  mkCV2Video (container self) (filename_or_index self) (api_preference self)
    (flipped self) (width self) (height self) (use_fps_delay self)
    (frame_number self) v (_frame self) (_image self)
    (_image_needs_update self) (_frame_receiver self) (_frame_sender self).

Definition set_frame (self : CV2Video) (v : option Frame) : CV2Video :=
  mkCV2Video (container self) (filename_or_index self) (api_preference self)
    (flipped self) (width self) (height self) (use_fps_delay self)
    (frame_number self) (_frame_collector self) v (_image self)
    (_image_needs_update self) (_frame_receiver self) (_frame_sender self).

Definition set_image (self : CV2Video) (v : option Image) : CV2Video :=
  mkCV2Video (container self) (filename_or_index self) (api_preference self)
    (flipped self) (width self) (height self) (use_fps_delay self)
    (frame_number self) (_frame_collector self) (_frame self) v
    (_image_needs_update self) (_frame_receiver self) (_frame_sender self).

Definition set_image_needs_update (self : CV2Video) (v : bool) : CV2Video :=
  mkCV2Video (container self) (filename_or_index self) (api_preference self)
    (flipped self) (width self) (height self) (use_fps_delay self)
    (frame_number self) (_frame_collector self) (_frame self) (_image self)
    v (_frame_receiver self) (_frame_sender self).

(** What the backend and the pipe see of a run, in order. *)
Inductive Event : Type :=
| EvCapture (src : Source) (apiPreference : Z)
| EvSet (prop : CapProp) (v : Z)
| EvRead
| EvSend (m : Msg)
| EvSleep (d : Py.float)
| EvRelease.

(** [_create_capture], lines 117-125. *)
Definition _create_capture (backend : Backend) (self : CV2Video) : Capture :=
  let capture := VideoCapture backend (filename_or_index self) (api_preference self) in
  let capture :=
    match width self with
    | Some w => capture_set capture CAP_PROP_FRAME_WIDTH w
    | None => capture
    end in
  let capture :=
    match height self with
    | Some h => capture_set capture CAP_PROP_FRAME_HEIGHT h
    | None => capture
    end in
  if 0 <? frame_number self
  then capture_set capture CAP_PROP_POS_FRAMES (frame_number self)
  else capture.

(** The backend calls [_create_capture] makes. *)
Definition capture_events (self : CV2Video) (c : Capture) : list Event :=
  EvCapture (filename_or_index self) (api_preference self)
  :: map (fun s => EvSet (fst s) (snd s)) (settings c).

(** [set_image_dirty], lines 75-76. *)
Definition set_image_dirty (self : CV2Video) : CV2Video :=
  set_image_needs_update self true.

(** [_on_frame_received], lines 78-81. *)
Definition _on_frame_received (self : CV2Video) (frame : Frame) : CV2Video :=
  let self := set_frame_number self (frame_number self + 1) in
  let self := set_frame self (Some frame) in
  set_image_needs_update self true.

(** [_collect_first_frame], lines 83-92: the capture is released whatever
    the read gave. *)
Definition _collect_first_frame (backend : Backend) (self : CV2Video)
  : CV2Video * list Event :=
  let capture := _create_capture backend self in
  let '(read, capture') := capture_read capture in
  let self' :=
    match read with
    | Some frame => set_image_dirty (set_frame self (Some frame))
    | None => self
    end in
  (self', capture_events self capture ++ [EvRead; EvRelease]).

(** [__init__], lines 9-33.  [main_process] says whether the current
    process is named "MainProcess"; binding the <Configure> handler needs a
    container. *)
Definition __init__ (main_process : bool) (backend : Backend)
    (container : option Widget) (filename_or_index : Source)
    (api_preference : Z) (flipped : bool) (width height : option Z)
    (use_fps_delay : bool) (frame_number : Z)
  : result CV2Video * list Event :=
  let self :=
    mkCV2Video container filename_or_index api_preference flipped width
      height use_fps_delay frame_number None None None false None None in
  if main_process then
    match container with
    | None => (Raise AttributeError, [])
    | Some _ =>
        let self :=
          mkCV2Video container filename_or_index api_preference flipped
            width height use_fps_delay frame_number None None None false
            (Some ReadEnd) (Some WriteEnd) in
        if is_str filename_or_index then
          let '(self, log) := _collect_first_frame backend self in
          (Ok self, log)
        else (Ok self, [])
    end
  else (Ok self, []).

(** [__reduce__], lines 155-156. *)
Definition __reduce__ (self : CV2Video) : Pickled :=
  mkPickled (filename_or_index self) (api_preference self) (flipped self)
    (width self) (height self) (use_fps_delay self) (frame_number self).

(** Rebuilding the object in the producer process: the class applied to
    the pickled arguments, outside the main process. *)
Definition unpickle (backend : Backend) (p : Pickled) : result CV2Video :=
  fst (__init__ false backend None (p_filename_or_index p) (p_api_preference p)
         (p_flipped p) (p_width p) (p_height p) (p_use_fps_delay p)
         (p_frame_number p)).

(** ** Controller methods

    A method returns the object as it leaves it together with its
    outcome: a field assigned before an exception is raised stays
    assigned. *)

(** [play], lines 35-43. *)
Definition play (self : CV2Video) : CV2Video * result unit :=
  match _frame_collector self with
  | None =>
      let self :=
        set_frame_collector self
          (Some (mkProcess (__reduce__ self) (_frame_sender self))) in
      match container self with
      | None => (self, Raise AttributeError)
      | Some w =>
          (set_container self (Some (event_generate w "<<PLAY>>")), Ok tt)
      end
  | Some _ => (self, Ok tt)
  end.

(** [pause], lines 45-51: the process is terminated, joined and closed,
    and the handle dropped. *)
Definition pause (self : CV2Video) : CV2Video * result unit :=
  match _frame_collector self with
  | Some _ =>
      match container self with
      | None => (self, Raise AttributeError)
      | Some w =>
          let self := set_container self (Some (event_generate w "<<PAUSE>>")) in
          (set_frame_collector self None, Ok tt)
      end
  | None => (self, Ok tt)
  end.

(** [toggle_play_pause], lines 53-57. *)
Definition toggle_play_pause (self : CV2Video) : CV2Video * result unit :=
  match _frame_collector self with
  | None => play self
  | Some _ => pause self
  end.

(** [reset], lines 59-61. *)
Definition reset (self : CV2Video) : CV2Video * result unit :=
  let '(self, r) := pause self in
  match r with
  | Raise e => (self, Raise e)
  | Ok _ => (set_frame_number self 0, Ok tt)
  end.

(** [cv2.resize(image, optimal_size)], line 134.  OpenCV asserts that
    neither the source image nor the requested size is empty
    ([!ssize.empty()], [!dsize.empty()]: a size is empty when its width or
    its height is not positive) and raises [cv2.error] otherwise.  The
    pixels it produces are not modelled, nor is a failure to allocate
    them. *)
Definition cv2_resize (image : Frame) (dsize : Z * Z) : result unit :=
  if (cols image <=? 0) || (rows image <=? 0)
     || (fst dsize <=? 0) || (snd dsize <=? 0)
  then Raise Cv2Error
  else Ok tt.

(** [_update_image], lines 127-141.  [cv2.flip], [cv2.cvtColor] and the
    PIL conversions are kept as the record of what they were applied to;
    an exception of [_get_optimal_size] or of [cv2.resize] leaves the
    method before [_image] is assigned and before the widget is
    configured, with the flag already cleared. *)
Definition _update_image (self : CV2Video) : CV2Video * result unit :=
  let self := set_image_needs_update self false in
  match _frame self with
  | Some frame =>
      match container self with
      | None => (self, Raise AttributeError)
      | Some w =>
          match _get_optimal_size (geometry w) frame with
          | Raise e => (self, Raise e)
          | Ok optimal_size =>
              match cv2_resize frame optimal_size with
              | Raise e => (self, Raise e)
              | Ok _ =>
                  let img := mkImage frame (flipped self) optimal_size in
                  let self := set_image self (Some img) in
                  (set_container self (Some (configure w (_image self))),
                   Ok tt)
              end
          end
      end
  | None =>
      let self := set_image self None in
      match container self with
      | None => (self, Raise AttributeError)
      | Some w => (set_container self (Some (configure w (_image self))), Ok tt)
      end
  end.

(** The loop of [update], lines 65-70: as long as [poll()] answers true a
    message is received; a frame goes to [_on_frame_received], [None] sets
    [reached_end]. *)
Fixpoint drain (pipe : list Msg) (self : CV2Video) (reached_end : bool)
  : CV2Video * bool * list Msg :=
  match pipe with
  | [] => (self, reached_end, pipe)
  | frame :: pipe' =>
      match frame with
      | Some f => drain pipe' (_on_frame_received self f) reached_end
      | None => drain pipe' self true
      end
  end.

(** Lines 71-72 of [update]: the image is rebuilt when it is stale. *)
Definition refresh (self : CV2Video) : CV2Video * result unit :=
  if _image_needs_update self then _update_image self else (self, Ok tt).

(** [update], lines 63-73, on the object and the messages queued on its
    pipe: the object and the pipe as the call leaves them, and what it
    returns. *)
Definition update (self : CV2Video) (pipe : list Msg)
  : CV2Video * list Msg * result bool :=
  match _frame_receiver self with
  | None => (self, pipe, Raise AttributeError)
  | Some _ =>
      let '(self, reached_end, pipe) := drain pipe self false in
      let '(self, r) := refresh self in
      (self, pipe, _ <- r ;; Ok (negb reached_end))
  end.

(** Whether a message is the end-of-stream marker. *)
Definition is_end (m : Msg) : bool :=
  match m with None => true | Some _ => false end.

(** The frames among the messages, in order. *)
Definition frames_of (pipe : list Msg) : list Frame :=
  flat_map (fun m => match m with Some f => [f] | None => [] end) pipe.

(** ** The controller and its pipe over time *)

Record World : Type := mkWorld {
  video : CV2Video;
  pipe : list Msg
}.

(** What can happen to a controller: a call of one of its methods, the
    running producer putting a message on the pipe, or Tk resizing the
    container, which runs the <Configure> handler. *)
Inductive Op : Type :=
| OpPlay
| OpPause
| OpToggle
| OpReset
| OpUpdate
| OpSend (m : Msg)
| OpConfigure (w h : Z).

Definition is_reset (op : Op) : bool :=
  match op with OpReset => true | _ => false end.

(** The operations that can reach [pause], lines 45-51, and with it
    [terminate()] on a running producer. *)
Definition stops_producer (op : Op) : bool :=
  match op with OpPause | OpToggle | OpReset => true | _ => false end.

Definition resize (self : CV2Video) (w h : Z) : CV2Video :=
  match container self with
  | Some c =>
      set_image_dirty
        (set_container self
           (Some (mkWidget (mkContainer w h) (image c) (events c))))
  | None => self
  end.

(** One step.  The pipe holds whole messages only: a step happens between
    two sends of the producer.  [terminate()] can also hit a producer in
    the middle of a send and leave part of a message on the pipe; what
    the reading end does with that is not modelled, so statements about
    the content of the pipe are made for sequences in which no producer
    is stopped. *)
Definition step (op : Op) (s : World) : World :=
  match op with
  | OpPlay => mkWorld (fst (play (video s))) (pipe s)
  | OpPause => mkWorld (fst (pause (video s))) (pipe s)
  | OpToggle => mkWorld (fst (toggle_play_pause (video s))) (pipe s)
  | OpReset => mkWorld (fst (reset (video s))) (pipe s)
  | OpUpdate =>
      let '(self, pipe', _) := update (video s) (pipe s) in mkWorld self pipe'
  | OpSend m => mkWorld (video s) (pipe s ++ [m])
  | OpConfigure w h => mkWorld (resize (video s) w h) (pipe s)
  end.

Definition run (ops : list Op) (s : World) : World :=
  fold_left (fun s op => step op s) ops s.

(** ** The producer *)

(** The producer's end of the pipe: whether it is closed, and whether the
    [n]-th send still finds the reading end open. *)
Record Sender : Type := mkSender {
  closed : bool;
  peer_open : nat -> bool
}.

(** Pacing state of the loop: the interval, the deadline, and how many
    times [time.time()] has been read. *)
Record Pacing : Type := mkPacing {
  duration_per_frame : Py.float;
  next_frame_time : Py.float;
  ticks : nat
}.

Inductive Outcome : Type :=
| Returned
| Raised (e : exn).

(** [1 / (capture.get(cv2.CAP_PROP_FPS) or 1)], line 100. *)
Definition frame_interval (capture : Capture) : result Py.float :=
  Py.truediv (Py.Int 1) (Py.or_ (Py.Float (fps capture)) (Py.Int 1)).

(** Lines 109-113; [time] gives the successive readings of [time.time()].
    Without [use_fps_delay] there is no pacing state and nothing happens. *)
Definition pace (time : nat -> Py.float) (pacing : option Pacing)
  : option Pacing * list Event :=
  match pacing with
  | None => (None, [])
  | Some p =>
      let next_frame_time := Py.add (next_frame_time p) (duration_per_frame p) in
      let duration_to_next_frame := Py.sub next_frame_time (time (ticks p)) in
      (Some (mkPacing (duration_per_frame p) next_frame_time (S (ticks p))),
       if Py.gt0 duration_to_next_frame then [EvSleep duration_to_next_frame]
       else [])
  end.

(** The loop of [_collect_frames], lines 102-113, on the frames the
    capture has still to deliver: [capture.read()] takes the first one and
    fails when none is left.  [sent] counts the sends so far. *)
Fixpoint read_loop (frames : list Frame) (sender : Sender)
    (time : nat -> Py.float) (pacing : option Pacing) (sent : nat)
  : list Event * Outcome * option Pacing :=
  if closed sender then ([], Returned, pacing)
  else
    match frames with
    | [] =>
        if peer_open sender sent
        then ([EvRead; EvSend None], Returned, pacing)
        else ([EvRead], Raised BrokenPipeError, pacing)
    | frame :: rest =>
        if peer_open sender sent then
          let '(pacing', slept) := pace time pacing in
          let '(evs, out, final) := read_loop rest sender time pacing' (S sent) in
          (EvRead :: EvSend (Some frame) :: slept ++ evs, out, final)
        else ([EvRead], Raised BrokenPipeError, pacing)
    end.

(** [_collect_frames], lines 94-115: the capture is released on every way
    out, and nothing is caught. *)
Definition _collect_frames (backend : Backend) (self : CV2Video)
    (sender : Sender) (time : nat -> Py.float)
  : list Event * Outcome :=
  let capture := _create_capture backend self in
  let opened := capture_events self capture in
  let pacing :=
    if use_fps_delay self then
      duration_per_frame <- frame_interval capture ;;
      Ok (Some (mkPacing duration_per_frame (time 0%nat) 1))
    else Ok None in
  match pacing with
  | Raise e => (opened ++ [EvRelease], Raised e)
  | Ok pacing =>
      let '(evs, out, _) :=
        read_loop (remaining capture) sender time pacing 0 in
      (opened ++ evs ++ [EvRelease], out)
  end.

(** The messages a run of the producer put on the pipe, in order. *)
Definition sent_messages (evs : list Event) : list Msg :=
  flat_map (fun ev => match ev with EvSend m => [m] | _ => [] end) evs.

(** The durations a run of the producer slept, in order. *)
Definition sleeps (evs : list Event) : list Py.float :=
  flat_map (fun ev => match ev with EvSleep d => [d] | _ => [] end) evs.

(** ** Measures used in the proofs *)

(** The magnitude of a finite float: the position of its leading bit. *)
Definition magnitude (x : Py.float) : Z :=
  match x with
  | S754_finite _ m e => Zpos (digits2_pos m) + e
  | _ => 0
  end.

(** A positive float with a full mantissa. *)
Definition is_pos_normal (x : Py.float) : bool :=
  match x with
  | S754_finite false m _ => Zpos (digits2_pos m) =? Py.prec
  | _ => false
  end.


(** A width or height as Tk and OpenCV report them: a positive C [int]. *)
Definition dimension (z : Z) : Prop := 0 < z < 2 ^ 31.

Definition frame_ok (f : Frame) : Prop :=
  dimension (cols f) /\ dimension (rows f).

(** An object that can rebuild its image: it has a container of positive
    size, and its current frame, if any, has positive dimensions. *)
Definition displayable (self : CV2Video) : Prop :=
  (exists w, container self = Some w /\
             dimension (winfo_width (geometry w)) /\
             dimension (winfo_height (geometry w))) /\
  (forall f, _frame self = Some f -> frame_ok f).

(** The deadline after [k] paced iterations: the interval added [k]
    times. *)
Definition deadline (interval start : Py.float) (k : nat) : Py.float :=
  Nat.iter k (fun t => Py.add t interval) start.

(** The float 1.0. *)
Definition one : Py.float := S754_finite false 4503599627370496 (-52).

(** ** What the specification speaks of

    Aspect ratios and the ceiling of a proportional value, on the
    integers, where nothing is rounded; and the run of a paced producer. *)




(** The run of a paced producer as the specification words it, on a pipe
    that stays open.  The deadlines are fixed by the first clock reading
    alone: the one of the [k]-th frame is [start] plus [k] intervals.  For
    each frame there is a read and a send, and then a sleep for the time
    left to that frame's deadline when the clock, read after the send, has
    not reached it; after the last frame come a read and the marker.
    [k] frames have been sent so far. *)
Fixpoint paced_trace (interval start : Py.float) (time : nat -> Py.float)
    (k : nat) (frames : list Frame) : list Event :=
  match frames with
  | [] => [EvRead; EvSend None]
  | frame :: rest =>
      let left := Py.sub (deadline interval start (S k)) (time (S k)) in
      [EvRead; EvSend (Some frame)]
      ++ (if Py.gt0 left then [EvSleep left] else [])
      ++ paced_trace interval start time (S k) rest
  end.

(** ** A concrete setting

    The webcam example of the script and a three-frame file, used to run
    the definitions. *)

Definition label : Widget := mkWidget (mkContainer 800 600) None [].

Definition clip : list Frame :=
  [mkFrame 480 640 0; mkFrame 480 640 1; mkFrame 480 640 2].

Definition fps25 : Py.float :=
  Eval vm_compute in binary_normalize Py.prec Py.emax 25 0 false.

Definition files : Backend := mkBackend (fun _ _ => clip) (fun _ _ => fps25).

Definition webcam : CV2Video :=
  mkCV2Video (Some label) (Index 0) 0 true (Some 1920) (Some 1080) false 0
    None None None false (Some ReadEnd) (Some WriteEnd).

(** The file example of the script, paused after two frames. *)
Definition video_at_2 : CV2Video :=
  mkCV2Video (Some label) (Filename "promi_s0_t0_l3.avi") 0 false None None
    true 2 None (Some (mkFrame 480 640 1)) None false
    (Some ReadEnd) (Some WriteEnd).

(** The object the producer process works on, at frame 0 and at frame 2. *)
Definition producer_at_0 : CV2Video :=
  mkCV2Video None (Filename "promi_s0_t0_l3.avi") 0 false None None
    true 0 None None None false None None.

Definition producer_at_2 : CV2Video :=
  mkCV2Video None (Filename "promi_s0_t0_l3.avi") 0 false None None
    true 2 None None None false None None.

(** A pipe whose ends both stay open, and a clock that stands still. *)
Definition open_sender : Sender := mkSender false (fun _ => true).

Definition still_clock : nat -> Py.float := fun _ => S754_zero false.

(** [n / 100] seconds as a double. *)
Definition hundredths (n : Z) : Py.float :=
  match Py.int_truediv n 100 with
  | Ok x => x
  | Raise _ => S754_zero false
  end.

(** A clock that reads 0 when the producer starts, 0.05 after the first
    send (the first deadline, 0.04, has passed), 0.07 after the second and
    0.2 from then on. *)
Definition jittery_clock : nat -> Py.float := fun n =>
  match n with
  | O => S754_zero false
  | 1%nat => hundredths 5
  | 2%nat => hundredths 7
  | _ => hundredths 20
  end.

(** ** Measures for the further properties *)

(** Whether a producer handle is held. *)
Definition is_playing (self : CV2Video) : bool :=
  match _frame_collector self with Some _ => true | None => false end.

(** What an object was configured with: what [__reduce__] gives, the
    frame number apart. *)
Definition config (self : CV2Video) : Pickled :=
  __reduce__ (set_frame_number self 0).

(** The widget shows the image the object holds. *)
Definition synced (self : CV2Video) : Prop :=
  match container self with
  | Some w => image w = _image self
  | None => True
  end.

(** The virtual events generated so far and the playing state they end in:
    "<<PLAY>>" and "<<PAUSE>>" take turns, "<<PLAY>>" first. *)
Inductive alternating : list string -> bool -> Prop :=
| alt_nil : alternating [] false
| alt_play (evs : list string) :
    alternating evs false -> alternating (evs ++ ["<<PLAY>>"%string]) true
| alt_pause (evs : list string) :
    alternating evs true -> alternating (evs ++ ["<<PAUSE>>"%string]) false.

Definition is_release (ev : Event) : bool :=
  match ev with EvRelease => true | _ => false end.

Definition is_capture (ev : Event) : bool :=
  match ev with EvCapture _ _ => true | _ => false end.

(** The frames the producer put on the pipe during a sequence of steps. *)
Definition frames_sent (ops : list Op) : list Frame :=
  flat_map (fun op => match op with OpSend (Some f) => [f] | _ => [] end) ops.

(** The quotient [m1 / m2] computed with [s] extra bits and rounded to a
    double, as [a / b] on integers does. *)
Definition rounded_quotient (m1 m2 s : Z) : Py.float :=
  binary_round_aux Py.prec Py.emax false (m1 * 2 ^ s / m2) (- s)
    (new_location m2 ((m1 * 2 ^ s) mod m2)).

(** Two states of the container that differ at most in the image shown. *)
Definition same_widget (a b : option Widget) : Prop :=
  match a, b with
  | Some w, Some w' => geometry w' = geometry w /\ events w' = events w
  | None, None => True
  | _, _ => False
  end.

(** A producer handle, when one is held, was given the object's own
    sending end. *)
Definition wired (self : CV2Video) : Prop :=
  forall p, _frame_collector self = Some p -> args p = _frame_sender self.

(** The container is there and its events fit the playing state. *)
Definition notifies (self : CV2Video) : Prop :=
  exists w, container self = Some w /\
            alternating (events w) (is_playing self).

(** * Facts about binary64 arithmetic *)

(** [SpecFloat] is written with the integer operations of the core
    library; the arithmetic lemmas and [lia] know those of [ZArith]. *)
Ltac std_ops :=
  change IntDef.Z.add with Z.add in *;
  change IntDef.Z.sub with Z.sub in *;
  change IntDef.Z.mul with Z.mul in *;
  change IntDef.Z.opp with Z.opp in *;
  change IntDef.Z.max with Z.max in *;
  change IntDef.Z.min with Z.min in *;
  change IntDef.Z.leb with Z.leb in *;
  change IntDef.Z.eqb with Z.eqb in *;
  change IntDef.Z.even with Z.even in *;
  change IntDef.Z.compare with Z.compare in *;
  change IntDef.Z.shiftl with Z.shiftl in *;
  change IntDef.Z.div_eucl with Z.div_eucl in *;
  change PosDef.Pos.mul with Pos.mul in *;
  change PosDef.Pos.compare_cont with Pos.compare_cont in *;
  change @PosDef.Pos.iter with @Pos.iter in *.

Lemma digits2_pos_size (p : positive) : digits2_pos p = Pos.size p.
Proof. induction p; simpl; congruence. Qed.

Lemma Zdigits2_log2 (m : Z) : 0 < m -> Zdigits2 m = Z.log2 m + 1.
Proof.
  destruct m as [|p|p]; try lia. intros _.
  destruct p; simpl; rewrite ?digits2_pos_size; lia.
Qed.

Lemma Zdigits2_bounds (m : Z) :
  0 < m -> 2 ^ (Zdigits2 m - 1) <= m < 2 ^ Zdigits2 m.
Proof.
  intros H. rewrite Zdigits2_log2 by assumption.
  replace (Z.log2 m + 1 - 1) with (Z.log2 m) by lia.
  replace (Z.log2 m + 1) with (Z.succ (Z.log2 m)) by lia.
  apply Z.log2_spec; assumption.
Qed.

Lemma Zdigits2_unique (m d : Z) :
  2 ^ (d - 1) <= m < 2 ^ d -> 0 < d -> Zdigits2 m = d.
Proof.
  intros H Hd.
  assert (0 < m) by (assert (0 < 2 ^ (d - 1)) by (apply Z.pow_pos_nonneg; lia); lia).
  rewrite Zdigits2_log2 by assumption.
  assert (Z.log2 m = d - 1); [|lia].
  apply Z.log2_unique; [lia|].
  replace (Z.succ (d - 1)) with d by lia. assumption.
Qed.

Lemma Zdigits2_pos (m : Z) : 0 < m -> 0 < Zdigits2 m.
Proof. intros H. rewrite Zdigits2_log2 by assumption. pose proof (Z.log2_nonneg m). lia. Qed.

Lemma Zdigits2_mono (a b : Z) : 0 < a -> a <= b -> Zdigits2 a <= Zdigits2 b.
Proof.
  intros. rewrite !Zdigits2_log2 by lia.
  pose proof (Z.log2_le_mono a b). lia.
Qed.

Lemma shr_1_m (mrs : shr_record) :
  0 <= shr_m mrs -> shr_m (shr_1 mrs) = shr_m mrs / 2.
Proof.
  destruct mrs as [m r s]; simpl. intros H.
  destruct m as [|p|p]; try lia; try reflexivity.
  destruct p; simpl shr_m.
  - rewrite Pos2Z.inj_xI. apply Z.div_unique with (r := 1); lia.
  - rewrite Pos2Z.inj_xO. apply Z.div_unique with (r := 0); lia.
  - reflexivity.
Qed.

Lemma iter_shr_1_m (n : positive) :
  forall mrs, 0 <= shr_m mrs ->
    shr_m (iter_pos shr_1 n mrs) = shr_m mrs / 2 ^ Zpos n.
Proof.
  assert (Hnn : forall a k, 0 <= a -> 0 < k -> 0 <= a / k)
    by (intros; apply Z.div_pos; lia).
  induction n as [n IH|n IH|]; intros mrs H; simpl iter_pos.
  - assert (H1 : 0 <= shr_m (shr_1 mrs)) by (rewrite shr_1_m by assumption; apply Hnn; lia).
    assert (0 < 2 ^ Zpos n) by (apply Z.pow_pos_nonneg; lia).
    assert (H2 : 0 <= shr_m (iter_pos shr_1 n (shr_1 mrs)))
      by (rewrite IH by assumption; apply Hnn; lia).
    rewrite (IH _ H2), (IH _ H1), shr_1_m by assumption.
    rewrite !Z.div_div by lia. f_equal.
    replace (Zpos n~1) with (1 + Zpos n + Zpos n) by lia.
    rewrite !Z.pow_add_r by lia. change (2 ^ 1) with 2. lia.
  - assert (0 < 2 ^ Zpos n) by (apply Z.pow_pos_nonneg; lia).
    assert (H2 : 0 <= shr_m (iter_pos shr_1 n mrs))
      by (rewrite IH by assumption; apply Hnn; lia).
    rewrite (IH _ H2), (IH _ H).
    rewrite !Z.div_div by lia. f_equal.
    replace (Zpos n~0) with (Zpos n + Zpos n) by lia.
    rewrite Z.pow_add_r by lia. reflexivity.
  - rewrite shr_1_m by assumption. reflexivity.
Qed.

Lemma shr_m_spec (mrs : shr_record) (e n : Z) :
  0 <= shr_m mrs -> 0 <= n ->
  shr_m (fst (shr mrs e n)) = shr_m mrs / 2 ^ n /\ snd (shr mrs e n) = e + n.
Proof.
  intros H Hn. destruct n as [|p|p]; try lia; simpl.
  - split; [symmetry; apply Z.div_1_r | lia].
  - split; [apply iter_shr_1_m; assumption | reflexivity].
Qed.

Lemma shr_record_of_loc_m (m : Z) (l : location) : shr_m (shr_record_of_loc m l) = m.
Proof. destruct l as [|[ | | ]]; reflexivity. Qed.

Lemma round_nearest_even_bounds (m : Z) (l : location) :
  m <= round_nearest_even m l <= m + 1.
Proof.
  destruct l as [|[ | | ]]; simpl; try lia.
  destruct (Z.even m); lia.
Qed.

Lemma Zdigits2_div_pow2 (m k : Z) :
  0 < m -> 0 <= k < Zdigits2 m -> Zdigits2 (m / 2 ^ k) = Zdigits2 m - k /\ 0 < m / 2 ^ k.
Proof.
  intros Hm Hk.
  pose proof (Zdigits2_bounds m Hm) as [Hlo Hhi].
  assert (H2k : 0 < 2 ^ k) by (apply Z.pow_pos_nonneg; lia).
  assert (Hq : 2 ^ (Zdigits2 m - k - 1) <= m / 2 ^ k < 2 ^ (Zdigits2 m - k)).
  { split.
    - apply Z.div_le_lower_bound; [lia|].
      rewrite <- Z.pow_add_r by lia.
      replace (k + (Zdigits2 m - k - 1)) with (Zdigits2 m - 1) by lia. lia.
    - apply Z.div_lt_upper_bound; [lia|].
      rewrite <- Z.pow_add_r by lia.
      replace (k + (Zdigits2 m - k)) with (Zdigits2 m) by lia. lia. }
  split.
  - apply Zdigits2_unique; [assumption | lia].
  - assert (0 < 2 ^ (Zdigits2 m - k - 1)) by (apply Z.pow_pos_nonneg; lia). lia.
Qed.

Lemma fexp_normal (x : Z) :
  -1021 <= x -> fexp Py.prec Py.emax x = x - 53.
Proof.
  intros H. unfold fexp, emin, Py.prec, Py.emax.
  std_ops. lia.
Qed.

Lemma shr_fexp_spec (m e : Z) (l : location) :
  0 < m -> Py.prec <= Zdigits2 m -> -1021 <= Zdigits2 m + e ->
  let n := Zdigits2 m - Py.prec in
  shr_m (fst (shr_fexp Py.prec Py.emax m e l)) = m / 2 ^ n /\
  snd (shr_fexp Py.prec Py.emax m e l) = e + n.
Proof.
  intros Hm Hd He n. unfold shr_fexp.
  assert (Hn : fexp Py.prec Py.emax (Zdigits2 m + e) - e = n).
  { unfold n. rewrite fexp_normal by lia. unfold Py.prec. lia. }
  rewrite Hn.
  pose proof (shr_m_spec (shr_record_of_loc m l) e n) as Hs.
  rewrite shr_record_of_loc_m in Hs. apply Hs; unfold n; lia.
Qed.

Lemma binary_round_aux_pos (m e : Z) (l : location) :
  0 < m -> Py.prec <= Zdigits2 m -> -1021 <= Zdigits2 m + e <= 1023 ->
  let x := binary_round_aux Py.prec Py.emax false m e l in
  is_pos_normal x = true /\
  Zdigits2 m + e <= magnitude x <= Zdigits2 m + e + 1.
Proof.
  intros Hm Hd He. unfold binary_round_aux. std_ops.
  pose proof (shr_fexp_spec m e l Hm Hd ltac:(lia)) as [H1m H1e].
  destruct (shr_fexp Py.prec Py.emax m e l) as [mrs1 e1]. simpl fst in *; simpl snd in *.
  pose proof (Zdigits2_div_pow2 m (Zdigits2 m - Py.prec) Hm ltac:(unfold Py.prec in *; lia)) as [Hd1 Hp1].
  rewrite <- H1m in Hd1, Hp1.
  set (m2 := round_nearest_even (shr_m mrs1) (loc_of_shr_record mrs1)).
  pose proof (round_nearest_even_bounds (shr_m mrs1) (loc_of_shr_record mrs1)) as Hb.
  fold m2 in Hb.
  assert (Hm2 : 0 < m2) by lia.
  assert (Hd2 : Py.prec <= Zdigits2 m2 <= Py.prec + 1).
  { pose proof (Zdigits2_mono (shr_m mrs1) m2 Hp1 ltac:(lia)).
    pose proof (Zdigits2_mono m2 (shr_m mrs1 + 1) Hm2 ltac:(lia)).
    assert (Zdigits2 (shr_m mrs1 + 1) <= Zdigits2 (shr_m mrs1) + 1).
    { rewrite !Zdigits2_log2 by lia.
      pose proof (Z.log2_succ_le (shr_m mrs1)). unfold Z.succ in *. lia. }
    lia. }
  pose proof (shr_fexp_spec m2 e1 loc_Exact Hm2 ltac:(lia) ltac:(unfold Py.prec in *; lia)) as [H2m H2e].
  destruct (shr_fexp Py.prec Py.emax m2 e1 loc_Exact) as [mrs2 e2]. simpl fst in *; simpl snd in *.
  pose proof (Zdigits2_div_pow2 m2 (Zdigits2 m2 - Py.prec) Hm2 ltac:(unfold Py.prec in *; lia)) as [Hd3 Hp3].
  rewrite <- H2m in Hd3, Hp3.
  destruct (shr_m mrs2) as [|p|p]; try lia.
  assert (Hle : (e2 <=? Py.emax - Py.prec) = true).
  { std_ops. apply Z.leb_le. unfold Py.prec, Py.emax in *. lia. }
  rewrite Hle. cbn [is_pos_normal magnitude]. cbn [Zdigits2] in Hd3.
  unfold Py.prec in *. split; [apply Z.eqb_eq | ]; lia.
Qed.

Lemma Zdigits2_mul (a b : Z) :
  0 < a -> 0 < b ->
  Zdigits2 a + Zdigits2 b - 1 <= Zdigits2 (a * b) <= Zdigits2 a + Zdigits2 b.
Proof.
  intros Ha Hb. rewrite !Zdigits2_log2 by nia.
  pose proof (Z.log2_mul_below a b Ha Hb).
  pose proof (Z.log2_mul_above a b ltac:(lia) ltac:(lia)). lia.
Qed.

Lemma Zdigits2_quotient (a b s : Z) :
  0 < a -> 0 < b -> 0 <= s -> Zdigits2 b < Zdigits2 a + s ->
  0 < a * 2 ^ s / b /\
  Zdigits2 a + s - Zdigits2 b <= Zdigits2 (a * 2 ^ s / b)
    <= Zdigits2 a + s - Zdigits2 b + 1.
Proof.
  intros Ha Hb Hs Hd.
  pose proof (Zdigits2_bounds a Ha) as [Hal Hah].
  pose proof (Zdigits2_bounds b Hb) as [Hbl Hbh].
  pose proof (Zdigits2_pos a Ha). pose proof (Zdigits2_pos b Hb).
  set (da := Zdigits2 a) in *. set (db := Zdigits2 b) in *.
  set (K := da + s - db - 1).
  assert (H2s : 0 < 2 ^ s) by (apply Z.pow_pos_nonneg; lia).
  assert (H2K : 0 < 2 ^ K) by (apply Z.pow_pos_nonneg; unfold K; lia).
  assert (Hlo : 2 ^ K <= a * 2 ^ s / b).
  { apply Z.div_le_lower_bound; [lia|].
    assert (b * 2 ^ K <= 2 ^ db * 2 ^ K) by nia.
    assert (2 ^ (da - 1) * 2 ^ s <= a * 2 ^ s) by nia.
    rewrite <- Z.pow_add_r in * by (unfold K; lia).
    replace (db + K) with (da - 1 + s) in * by (unfold K; lia). lia. }
  assert (Hhi : a * 2 ^ s / b < 2 ^ (K + 2)).
  { apply Z.div_lt_upper_bound; [lia|].
    assert (2 ^ (db - 1) * 2 ^ (K + 2) <= b * 2 ^ (K + 2)).
    { apply Z.mul_le_mono_nonneg_r; [apply Z.pow_nonneg|]; lia. }
    assert (a * 2 ^ s < 2 ^ da * 2 ^ s) by nia.
    rewrite <- Z.pow_add_r in * by (unfold K; lia).
    replace (db - 1 + (K + 2)) with (da + s) in * by (unfold K; lia). lia. }
  split; [lia|].
  assert (HK : Zdigits2 (2 ^ K) = K + 1).
  { apply Zdigits2_unique; [|unfold K; lia].
    replace (K + 1 - 1) with K by lia. split; [lia|].
    apply Z.pow_lt_mono_r; unfold K; lia. }
  pose proof (Zdigits2_mono (2 ^ K) (a * 2 ^ s / b) H2K Hlo).
  assert (Zdigits2 (a * 2 ^ s / b) <= K + 2).
  { pose proof (Zdigits2_bounds (a * 2 ^ s / b) ltac:(lia)) as [Hql _].
    destruct (Z_lt_le_dec (K + 2) (Zdigits2 (a * 2 ^ s / b))) as [Hgt|]; [|lia].
    exfalso.
    assert (2 ^ (K + 2) <= 2 ^ (Zdigits2 (a * 2 ^ s / b) - 1))
      by (apply Z.pow_le_mono_r; unfold K in *; lia).
    lia. }
  unfold K in *. lia.
Qed.

Lemma SFdiv_core_binary_spec (p1 p2 : positive) (e1 e2 : Z) :
  let delta := (Zpos (digits2_pos p1) + e1) - (Zpos (digits2_pos p2) + e2) in
  -1021 <= delta ->
  exists q e' l,
    SFdiv_core_binary Py.prec Py.emax (Zpos p1) e1 (Zpos p2) e2 = (q, e', l) /\
    0 < q /\ Py.prec <= Zdigits2 q /\
    delta <= Zdigits2 q + e' <= delta + 1.
Proof.
  intros delta Hdelta. unfold SFdiv_core_binary. std_ops.
  cbn [Zdigits2]. fold delta.
  rewrite (fexp_normal delta Hdelta).
  set (e' := Z.min (delta - 53) (e1 - e2)).
  set (s := e1 - e2 - e').
  assert (Hs : 0 <= s) by (unfold s, e'; lia).
  set (m' := match s with Z.pos _ => Z.shiftl (Z.pos p1) s | 0 => Z.pos p1 | Z.neg _ => 0 end).
  assert (Hm' : m' = Zpos p1 * 2 ^ s).
  { unfold m'. generalize s Hs. intros [|ps|ps] Hps; try lia.
    apply Z.shiftl_mul_pow2. lia. }
  destruct (Z.div_eucl m' (Z.pos p2)) as [q r] eqn:Hqr.
  assert (Hq : q = m' / Zpos p2) by (unfold Z.div; rewrite Hqr; reflexivity).
  exists q, e', (new_location (Z.pos p2) r). split; [reflexivity|].
  pose proof (Zdigits2_quotient (Zpos p1) (Zpos p2) s ltac:(lia) ltac:(lia) Hs) as Hquot.
  cbn [Zdigits2] in Hquot. rewrite <- Hm', <- Hq in Hquot.
  unfold Py.prec. unfold delta, s, e' in *.
  destruct Hquot as [? ?]; lia.
Qed.

Lemma is_pos_normal_inv (x : Py.float) :
  is_pos_normal x = true ->
  exists m e, x = S754_finite false m e /\ Zpos (digits2_pos m) = Py.prec.
Proof.
  destruct x as [| | |[|] m e]; simpl; try discriminate.
  intros H. exists m, e. split; [reflexivity | apply Z.eqb_eq; assumption].
Qed.

Lemma SFdiv_pos (m1 m2 : positive) (e1 e2 : Z) :
  let x := S754_finite false m1 e1 in
  let y := S754_finite false m2 e2 in
  -1021 <= magnitude x - magnitude y <= 1022 ->
  is_pos_normal (SFdiv Py.prec Py.emax x y) = true /\
  magnitude x - magnitude y <= magnitude (SFdiv Py.prec Py.emax x y)
    <= magnitude x - magnitude y + 2.
Proof.
  intros x y. unfold x, y. cbn [magnitude]. intros H.
  unfold SFdiv. cbn [xorb].
  destruct (SFdiv_core_binary_spec m1 m2 e1 e2 ltac:(lia))
    as (q & e' & l & -> & Hq & Hdq & Hmag).
  pose proof (binary_round_aux_pos q e' l Hq Hdq ltac:(lia)) as [Hn Hb].
  split; [assumption | lia].
Qed.

Lemma SFmul_pos (x y : Py.float) :
  is_pos_normal x = true -> is_pos_normal y = true ->
  -1020 <= magnitude x + magnitude y <= 1023 ->
  is_pos_normal (SFmul Py.prec Py.emax x y) = true /\
  magnitude x + magnitude y - 1 <= magnitude (SFmul Py.prec Py.emax x y)
    <= magnitude x + magnitude y + 1.
Proof.
  intros Hx Hy.
  destruct (is_pos_normal_inv x Hx) as (mx & ex & -> & Hdx).
  destruct (is_pos_normal_inv y Hy) as (my & ey & -> & Hdy).
  cbn [magnitude SFmul xorb]. intros H. std_ops.
  pose proof (Zdigits2_mul (Zpos mx) (Zpos my) ltac:(lia) ltac:(lia)) as Hd.
  rewrite <- Pos2Z.inj_mul in Hd. cbn [Zdigits2] in Hd.
  unfold Py.prec in Hdx, Hdy.
  pose proof (binary_round_aux_pos (Zpos (mx * my)) (ex + ey) loc_Exact
                ltac:(lia) ltac:(cbn [Zdigits2]; unfold Py.prec; lia)
                ltac:(cbn [Zdigits2]; lia)) as [Hn Hb].
  cbn [Zdigits2] in Hb. split; [assumption | lia].
Qed.

Lemma Zdigits2_mul_pow2 (m k : Z) :
  0 < m -> 0 <= k -> Zdigits2 (m * 2 ^ k) = Zdigits2 m + k.
Proof.
  intros Hm Hk.
  pose proof (Zdigits2_bounds m Hm) as [Hlo Hhi].
  pose proof (Zdigits2_pos m Hm).
  assert (0 < 2 ^ k) by (apply Z.pow_pos_nonneg; lia).
  apply Zdigits2_unique; [|lia].
  replace (Zdigits2 m + k - 1) with (Zdigits2 m - 1 + k) by lia.
  rewrite !Z.pow_add_r by lia. nia.
Qed.

Lemma iter_xO_pow2 (p k : positive) :
  Zpos (Pos.iter xO p k) = Zpos p * 2 ^ Zpos k.
Proof.
  induction k as [|k IH] using Pos.peano_ind.
  - simpl. lia.
  - rewrite Pos.iter_succ, Pos2Z.inj_xO, IH, Pos2Z.inj_succ, Z.pow_succ_r by lia. lia.
Qed.

Lemma int_to_float_pos (z : Z) :
  0 < z -> Zdigits2 z <= 1022 ->
  exists x, Py.int_to_float z = Ok x /\ is_pos_normal x = true /\
    Zdigits2 z <= magnitude x <= Zdigits2 z + 1.
Proof.
  intros Hz Hd. destruct z as [|p|p]; try lia. cbn [Zdigits2] in Hd.
  unfold Py.int_to_float, binary_normalize, binary_round, shl_align. std_ops.
  pose proof (Zdigits2_pos (Zpos p) ltac:(lia)) as Hdp. cbn [Zdigits2] in Hdp.
  rewrite fexp_normal by lia.
  set (d := Zpos (digits2_pos p)) in *.
  assert (Hround : forall m e, 0 < m -> Py.prec <= Zdigits2 m ->
            Zdigits2 m + e = d ->
            exists x, (let y := binary_round_aux Py.prec Py.emax false m e loc_Exact in
                       if Py.is_infinite y then Raise OverflowError else Ok y) = Ok x /\
                      is_pos_normal x = true /\ d <= magnitude x <= d + 1).
  { intros m e Hm Hdm Hme.
    pose proof (binary_round_aux_pos m e loc_Exact Hm Hdm ltac:(lia)) as [Hn Hb].
    cbv zeta in *.
    destruct (is_pos_normal_inv _ Hn) as (m' & e' & Heq & _).
    rewrite Heq in *. exists (S754_finite false m' e').
    split; [reflexivity | split; [assumption | lia]]. }
  destruct (d + 0 - 53 - 0) as [|k|k] eqn:Hk.
  - apply Hround; cbn [Zdigits2]; fold d; unfold Py.prec; lia.
  - apply Hround; cbn [Zdigits2]; fold d; unfold Py.prec; lia.
  - apply Hround.
    + lia.
    + rewrite iter_xO_pow2, Zdigits2_mul_pow2 by lia.
      cbn [Zdigits2]. fold d. unfold Py.prec. lia.
    + rewrite iter_xO_pow2, Zdigits2_mul_pow2 by lia.
      cbn [Zdigits2]. fold d. lia.
Qed.

Lemma math_ceil_pos (x : Py.float) :
  is_pos_normal x = true -> exists c, Py.math_ceil x = Ok c /\ 1 <= c.
Proof.
  intros Hx. destruct (is_pos_normal_inv x Hx) as (m & e & -> & _).
  unfold Py.math_ceil, cond_Zopp. eexists. split; [reflexivity|].
  destruct (Z.leb_spec 0 e) as [He|He].
  - assert (0 < 2 ^ e) by (apply Z.pow_pos_nonneg; lia). nia.
  - assert (0 < 2 ^ (- e)) by (apply Z.pow_pos_nonneg; lia).
    assert (- Zpos m / 2 ^ (- e) < 0) by (apply Z.div_lt_upper_bound; lia).
    lia.
Qed.

Lemma compare_pos_normal (x y : Py.float) :
  is_pos_normal x = true -> is_pos_normal y = true ->
  exists c, SFcompare x y = Some c /\ SFcompare y x = Some (CompOpp c).
Proof.
  intros Hx Hy.
  destruct (is_pos_normal_inv x Hx) as (mx & ex & -> & _).
  destruct (is_pos_normal_inv y Hy) as (my & ey & -> & _).
  cbn [SFcompare]. std_ops. eexists. split; [reflexivity|].
  rewrite (Z.compare_antisym ex ey).
  destruct (ex ?= ey); cbn [CompOpp]; try reflexivity.
  f_equal. symmetry. exact (Pos.compare_cont_antisym mx my Eq).
Qed.

Lemma dimension_digits (z : Z) : dimension z -> 1 <= Zdigits2 z <= 31.
Proof.
  intros [Hl Hh]. pose proof (Zdigits2_pos z Hl).
  pose proof (Zdigits2_bounds z Hl) as [Hlo _].
  split; [lia|].
  destruct (Z_lt_le_dec 31 (Zdigits2 z)) as [Hgt|]; [|lia].
  assert (2 ^ 31 <= 2 ^ (Zdigits2 z - 1)) by (apply Z.pow_le_mono_r; lia).
  lia.
Qed.

Lemma int_truediv_dimension (a b : Z) :
  dimension a -> dimension b ->
  exists q, Py.int_truediv a b = Ok q /\ is_pos_normal q = true /\
            -30 <= magnitude q <= 32.
Proof.
  intros Ha Hb.
  pose proof (dimension_digits a Ha). pose proof (dimension_digits b Hb).
  destruct Ha as [Ha _], Hb as [Hb _].
  destruct a as [|pa|pa]; try lia. destruct b as [|pb|pb]; try lia.
  unfold Py.int_truediv. cbn [Z.eqb Py.exact].
  cbn [Zdigits2] in *.
  pose proof (SFdiv_pos pa pb 0 0) as Hdiv. cbn [magnitude] in Hdiv.
  destruct (Hdiv ltac:(lia)) as [Hn Hm].
  destruct (is_pos_normal_inv _ Hn) as (m & e & Heq & _).
  exists (SFdiv Py.prec Py.emax (S754_finite false pa 0) (S754_finite false pb 0)).
  split; [rewrite Heq; reflexivity | split; [assumption | lia]].
Qed.

Lemma int_to_float_dimension (z : Z) :
  dimension z ->
  exists x, Py.int_to_float z = Ok x /\ is_pos_normal x = true /\
            1 <= magnitude x <= 32.
Proof.
  intros Hz. pose proof (dimension_digits z Hz).
  destruct (int_to_float_pos z ltac:(destruct Hz; lia) ltac:(lia)) as (x & Hx & Hn & Hm).
  exists x. split; [assumption | split; [assumption | lia]].
Qed.

Lemma int_mul_float_dimension (a : Z) (x : Py.float) :
  dimension a -> is_pos_normal x = true -> -30 <= magnitude x <= 32 ->
  exists y, Py.int_mul_float a x = Ok y /\ is_pos_normal y = true.
Proof.
  intros Ha Hx Hm. unfold Py.int_mul_float.
  destruct (int_to_float_dimension a Ha) as (a' & -> & Hn & Hma).
  cbn [bind]. eexists. split; [reflexivity|].
  apply SFmul_pos; [assumption | assumption | lia].
Qed.

Lemma int_div_float_dimension (a : Z) (x : Py.float) :
  dimension a -> is_pos_normal x = true -> -30 <= magnitude x <= 32 ->
  exists y, Py.truediv (Py.Int a) (Py.Float x) = Ok y /\ is_pos_normal y = true.
Proof.
  intros Ha Hx Hm. unfold Py.truediv.
  destruct (int_to_float_dimension a Ha) as (a' & -> & Hn & Hma).
  cbn [bind]. unfold Py.float_truediv.
  destruct (is_pos_normal_inv a' Hn) as (ma & ea & -> & _).
  destruct (is_pos_normal_inv x Hx) as (mx & ex & -> & _).
  cbn [Py.is_zero]. eexists. split; [reflexivity|].
  apply SFdiv_pos. lia.
Qed.


(** * The rounded quotient *)

Lemma iter_pos_commute {A : Type} (f : A -> A) (p : positive) :
  forall x, iter_pos f p (f x) = f (iter_pos f p x).
Proof.
  induction p as [p IH|p IH|]; intros x; cbn [iter_pos].
  - rewrite !IH. reflexivity.
  - rewrite !IH. reflexivity.
  - reflexivity.
Qed.

Lemma iter_pos_succ {A : Type} (f : A -> A) (p : positive) :
  forall x, iter_pos f (Pos.succ p) x = iter_pos f p (f x).
Proof.
  induction p as [p IH|p IH|]; intros x; cbn [Pos.succ iter_pos].
  - rewrite !IH. rewrite <- (iter_pos_commute f p (f x)). reflexivity.
  - reflexivity.
  - reflexivity.
Qed.

(** Where the remainder [k] of a division by [n] lies with respect to
    one half. *)
Lemma new_location_spec (n k : Z) :
  0 < n -> 0 <= k < n ->
  new_location n k
  = if k =? 0 then loc_Exact else loc_Inexact (2 * k ?= n).
Proof.
  intros Hn Hk. unfold new_location, new_location_even, new_location_odd.
  std_ops. destruct (Z.even n) eqn:He; [reflexivity|].
  destruct (k =? 0); [reflexivity|].
  assert (Hodd : Z.odd n = true) by (rewrite <- Z.negb_even, He; reflexivity).
  apply Z.odd_spec in Hodd. destruct Hodd as (h & Hh).
  f_equal.
  destruct (Z.compare_spec (2 * k + 1) n), (Z.compare_spec (2 * k) n);
    try reflexivity; lia.
Qed.

(** Scaling numerator and denominator alike does not change the rounded
    quotient. *)
Lemma rounded_quotient_scale (m1 m2 s k : Z) :
  0 < m1 -> 0 < m2 -> 0 < k -> 0 <= s ->
  rounded_quotient (k * m1) (k * m2) s = rounded_quotient m1 m2 s.
Proof.
  intros H1 H2 Hk Hs. unfold rounded_quotient.
  assert (H2s : 0 < 2 ^ s) by (apply Z.pow_pos_nonneg; lia).
  replace (k * m1 * 2 ^ s) with (k * (m1 * 2 ^ s)) by lia.
  rewrite Z.div_mul_cancel_l by lia.
  rewrite Z.mul_mod_distr_l by lia.
  pose proof (Z.mod_pos_bound (m1 * 2 ^ s) m2 H2) as Hr.
  set (r := (m1 * 2 ^ s) mod m2) in *.
  rewrite (new_location_spec (k * m2) (k * r)) by nia.
  rewrite (new_location_spec m2 r) by lia.
  replace (2 * (k * r)) with (k * (2 * r)) by lia.
  assert (Hcmp : (k * (2 * r) ?= k * m2) = (2 * r ?= m2)).
  { destruct (Z.compare_spec (2 * r) m2);
      [apply Z.compare_eq_iff | apply Z.compare_lt_iff | apply Z.compare_gt_iff];
      nia. }
  rewrite Hcmp.
  destruct (Z.eqb_spec r 0) as [->|Hr0].
  - rewrite Z.mul_0_r. reflexivity.
  - destruct (Z.eqb_spec (k * r) 0) as [H0|_]; [nia | reflexivity].
Qed.

(** One more bit in the quotient, one more shift in the rounding: the
    record the rounding starts from is the same. *)
Lemma shr_1_quotient (a m2 : Z) :
  0 < m2 -> 0 < a / m2 ->
  shr_1 (shr_record_of_loc (2 * a / m2) (new_location m2 ((2 * a) mod m2)))
  = shr_record_of_loc (a / m2) (new_location m2 (a mod m2)).
Proof.
  intros H2 Hq.
  pose proof (Z.div_mod a m2 ltac:(lia)) as Ha.
  pose proof (Z.mod_pos_bound a m2 H2) as Hr.
  set (q0 := a / m2) in *. set (r0 := a mod m2) in *.
  pose proof (Z.mod_pos_bound (2 * a) m2 H2) as Hr1.
  rewrite (new_location_spec m2 r0) by lia.
  rewrite (new_location_spec m2 ((2 * a) mod m2)) by lia.
  destruct (Z_lt_le_dec (2 * r0) m2) as [Hlt|Hge].
  - assert (Hq1 : 2 * a / m2 = 2 * q0)
      by (symmetry; apply Z.div_unique with (r := 2 * r0); lia).
    assert (Hm1 : (2 * a) mod m2 = 2 * r0)
      by (symmetry; apply Z.mod_unique with (q := 2 * q0); lia).
    rewrite Hq1, Hm1.
    destruct q0 as [|p|p]; try lia.
    change (2 * Z.pos p) with (Z.pos p~0).
    destruct (Z.eqb_spec r0 0) as [->|Hr0]; [reflexivity|].
    destruct (Z.eqb_spec (2 * r0) 0) as [H0|_]; [lia|].
    assert (Hc : (2 * r0 ?= m2) = Lt) by (apply Z.compare_lt_iff; lia).
    rewrite Hc.
    destruct (2 * (2 * r0) ?= m2); reflexivity.
  - assert (Hq1 : 2 * a / m2 = 2 * q0 + 1)
      by (symmetry; apply Z.div_unique with (r := 2 * r0 - m2); lia).
    assert (Hm1 : (2 * a) mod m2 = 2 * r0 - m2)
      by (symmetry; apply Z.mod_unique with (q := 2 * q0 + 1); lia).
    rewrite Hq1, Hm1.
    destruct q0 as [|p|p]; try lia.
    change (2 * Z.pos p + 1) with (Z.pos p~1).
    destruct (Z.eqb_spec r0 0) as [->|Hr0]; [lia|].
    destruct (Z.eqb_spec (2 * r0 - m2) 0) as [H0|H0].
    + assert (Hc : (2 * r0 ?= m2) = Eq) by (apply Z.compare_eq_iff; lia).
      rewrite Hc. reflexivity.
    + assert (Hc : (2 * r0 ?= m2) = Gt) by (apply Z.compare_gt_iff; lia).
      rewrite Hc.
      destruct (2 * (2 * r0 - m2) ?= m2); reflexivity.
Qed.

(** With at least 53 bits in the quotient, one bit more gives the same
    double. *)
Lemma rounded_quotient_succ (m1 m2 s : Z) :
  0 < m1 -> 0 < m2 -> 0 <= s ->
  Py.prec <= Zdigits2 (m1 * 2 ^ s / m2) ->
  -1021 <= Zdigits2 (m1 * 2 ^ s / m2) - s ->
  rounded_quotient m1 m2 (s + 1) = rounded_quotient m1 m2 s /\
  Zdigits2 (m1 * 2 ^ (s + 1) / m2) = Zdigits2 (m1 * 2 ^ s / m2) + 1.
Proof.
  intros H1 H2 Hs Hd Hrange.
  assert (H2s : 0 < 2 ^ s) by (apply Z.pow_pos_nonneg; lia).
  set (a := m1 * 2 ^ s) in *.
  assert (Ha : m1 * 2 ^ (s + 1) = 2 * a)
    by (unfold a; rewrite Z.pow_add_r by lia; change (2 ^ 1) with 2; lia).
  assert (Hq0 : 0 < a / m2).
  { destruct (a / m2) as [|p|p] eqn:Hq; [| lia |];
      cbn [Zdigits2] in Hd; unfold Py.prec in Hd; try lia.
    pose proof (Z.div_pos a m2 ltac:(nia) H2). lia. }
  pose proof (Z.div_mod a m2 ltac:(lia)) as Hdm.
  pose proof (Z.mod_pos_bound a m2 H2) as Hr.
  assert (Hq1 : 2 * (a / m2) <= 2 * a / m2 <= 2 * (a / m2) + 1).
  { split.
    - apply Z.div_le_lower_bound; nia.
    - assert (2 * a / m2 < 2 * (a / m2) + 2); [|lia].
      apply Z.div_lt_upper_bound; nia. }
  assert (Hdigits : Zdigits2 (2 * a / m2) = Zdigits2 (a / m2) + 1).
  { pose proof (Zdigits2_bounds (a / m2) Hq0) as [Hlo Hhi].
    pose proof (Zdigits2_pos (a / m2) Hq0) as Hpos.
    apply Zdigits2_unique; [|lia].
    replace (Zdigits2 (a / m2) + 1 - 1) with (1 + (Zdigits2 (a / m2) - 1)) by lia.
    replace (Zdigits2 (a / m2) + 1) with (1 + Zdigits2 (a / m2)) by lia.
    rewrite !Z.pow_add_r by lia. change (2 ^ 1) with 2. lia. }
  split; [|rewrite Ha; exact Hdigits].
  unfold rounded_quotient. rewrite Ha. fold a.
  unfold binary_round_aux.
  assert (Hshr : shr_fexp Py.prec Py.emax (2 * a / m2) (- (s + 1))
                   (new_location m2 ((2 * a) mod m2))
                 = shr_fexp Py.prec Py.emax (a / m2) (- s)
                     (new_location m2 (a mod m2))).
  { unfold shr_fexp. std_ops. rewrite Hdigits.
    replace (Zdigits2 (a / m2) + 1 + - (s + 1)) with (Zdigits2 (a / m2) + - s) by lia.
    rewrite fexp_normal by lia.
    replace (Zdigits2 (a / m2) + - s - 53 - - (s + 1))
      with (Zdigits2 (a / m2) - 53 + 1) by lia.
    replace (Zdigits2 (a / m2) + - s - 53 - - s)
      with (Zdigits2 (a / m2) - 53) by lia.
    pose proof (shr_1_quotient a m2 H2 Hq0) as H1step.
    unfold Py.prec in Hd.
    destruct (Zdigits2 (a / m2) - 53) as [|p|p] eqn:Hn; try lia.
    - cbn [Z.add shr iter_pos]. rewrite H1step. f_equal. lia.
    - replace (Z.pos p + 1) with (Z.pos (Pos.succ p)) by lia.
      cbn [shr]. rewrite iter_pos_succ, H1step. f_equal. lia. }
  rewrite Hshr. reflexivity.
Qed.

Lemma rounded_quotient_more (m1 m2 s : Z) (j : nat) :
  0 < m1 -> 0 < m2 -> 0 <= s ->
  Py.prec <= Zdigits2 (m1 * 2 ^ s / m2) ->
  -1021 <= Zdigits2 (m1 * 2 ^ s / m2) - s ->
  rounded_quotient m1 m2 (s + Z.of_nat j) = rounded_quotient m1 m2 s.
Proof.
  intros H1 H2 Hs Hd Hrange.
  assert (H : rounded_quotient m1 m2 (s + Z.of_nat j) = rounded_quotient m1 m2 s /\
              Zdigits2 (m1 * 2 ^ (s + Z.of_nat j) / m2)
              = Zdigits2 (m1 * 2 ^ s / m2) + Z.of_nat j); [|apply H].
  induction j as [|j [IHq IHd]].
  - rewrite Z.add_0_r. split; [reflexivity | lia].
  - replace (s + Z.of_nat (S j)) with (s + Z.of_nat j + 1) by lia.
    destruct (rounded_quotient_succ m1 m2 (s + Z.of_nat j) H1 H2 ltac:(lia)
                ltac:(lia) ltac:(lia)) as [Hq Hdig].
    split; [congruence | lia].
Qed.

(** [a / b] on two dimensions is the quotient computed with just enough
    bits for a 53-bit result, rounded. *)
Lemma int_truediv_rounded (a b : Z) :
  dimension a -> dimension b ->
  Py.int_truediv a b
  = Ok (rounded_quotient a b (53 + Zdigits2 b - Zdigits2 a)) /\
  Py.prec <= Zdigits2 (a * 2 ^ (53 + Zdigits2 b - Zdigits2 a) / b) <= Py.prec + 1.
Proof.
  intros Ha Hb.
  pose proof (dimension_digits a Ha) as Hda.
  pose proof (dimension_digits b Hb) as Hdb.
  destruct Ha as [Ha _], Hb as [Hb _].
  destruct a as [|pa|pa]; try lia. destruct b as [|pb|pb]; try lia.
  set (s := 53 + Zdigits2 (Z.pos pb) - Zdigits2 (Z.pos pa)).
  destruct (Zdigits2_quotient (Z.pos pa) (Z.pos pb) s Ha Hb
              ltac:(unfold s; lia) ltac:(unfold s; lia)) as [Hq Hdq].
  assert (Hdigits : Py.prec <= Zdigits2 (Z.pos pa * 2 ^ s / Z.pos pb) <= Py.prec + 1)
    by (unfold Py.prec, s in *; lia).
  split; [|exact Hdigits].
  assert (Hdiv : SFdiv Py.prec Py.emax (Py.exact (Z.pos pa)) (Py.exact (Z.pos pb))
                 = rounded_quotient (Z.pos pa) (Z.pos pb) s).
  { cbn [Py.exact SFdiv xorb]. unfold SFdiv_core_binary, rounded_quotient.
    std_ops. rewrite !Z.add_0_r. change (0 - 0) with 0.
    rewrite fexp_normal by lia.
    assert (He : Z.min (Zdigits2 (Z.pos pa) - Zdigits2 (Z.pos pb) - 53) 0 = - s)
      by (unfold s; lia).
    rewrite He. replace (0 - - s) with s by lia.
    assert (Hm : match s with
                 | 0 => Z.pos pa
                 | Z.pos _ => Z.shiftl (Z.pos pa) s
                 | Z.neg _ => 0
                 end = Z.pos pa * 2 ^ s).
    { assert (Hs : 0 < s) by (unfold s; lia). clearbody s.
      destruct s as [|ps|ps]; try lia. apply Z.shiftl_mul_pow2. lia. }
    rewrite Hm. unfold Z.div, Z.modulo.
    destruct (Z.div_eucl (Z.pos pa * 2 ^ s) (Z.pos pb)) as [q r]. reflexivity. }
  unfold Py.int_truediv. cbn [Z.eqb]. rewrite Hdiv.
  pose proof (binary_round_aux_pos (Z.pos pa * 2 ^ s / Z.pos pb) (- s)
                (new_location (Z.pos pb) ((Z.pos pa * 2 ^ s) mod Z.pos pb))
                Hq ltac:(lia) ltac:(unfold Py.prec, s in *; lia)) as [Hn _].
  fold (rounded_quotient (Z.pos pa) (Z.pos pb) s) in Hn.
  destruct (is_pos_normal_inv _ Hn) as (m & e & -> & _). reflexivity.
Qed.

Lemma eqb_pos_normal_refl (x : Py.float) :
  is_pos_normal x = true -> Py.eqb x x = true.
Proof.
  intros Hx. destruct (compare_pos_normal x x Hx Hx) as (c & Hc & Hc').
  unfold Py.eqb, SFeqb. rewrite Hc.
  rewrite Hc in Hc'. injection Hc' as Hc'. destruct c; try discriminate Hc'.
  reflexivity.
Qed.

(** Two pairs of dimensions in the same proportion have the same
    quotient as doubles. *)
Lemma int_truediv_proportional (w h W H : Z) :
  dimension w -> dimension h -> dimension W -> dimension H ->
  w * H = h * W ->
  Py.int_truediv w h = Py.int_truediv W H.
Proof.
  intros Hw Hh HW HH Hprop.
  destruct (int_truediv_rounded w h Hw Hh) as [-> Hd1].
  destruct (int_truediv_rounded W H HW HH) as [-> Hd2].
  pose proof (dimension_digits w Hw). pose proof (dimension_digits h Hh).
  pose proof (dimension_digits W HW). pose proof (dimension_digits H HH).
  destruct Hw as [Hw _], Hh as [Hh _], HW as [HW _], HH as [HH _].
  set (s1 := 53 + Zdigits2 h - Zdigits2 w) in *.
  set (s2 := 53 + Zdigits2 H - Zdigits2 W) in *.
  assert (Hs1 : 0 <= s1) by (unfold s1; lia).
  assert (Hs2 : 0 <= s2) by (unfold s2; lia).
  f_equal.
  assert (Hmove : forall s, 0 <= s ->
            rounded_quotient w h s = rounded_quotient W H s /\
            w * 2 ^ s / h = W * 2 ^ s / H).
  { intros s Hs. split.
    - rewrite <- (rounded_quotient_scale w h s H) by lia.
      rewrite <- (rounded_quotient_scale W H s h) by lia.
      f_equal; lia.
    - rewrite <- (Z.div_mul_cancel_l (w * 2 ^ s) h H) by lia.
      rewrite <- (Z.div_mul_cancel_l (W * 2 ^ s) H h) by lia.
      f_equal; [|lia].
      replace (H * (w * 2 ^ s)) with (w * H * 2 ^ s) by lia.
      rewrite Hprop. lia. }
  destruct (Hmove s1 Hs1) as [Hq1 Hquot1].
  rewrite Hq1. rewrite Hquot1 in Hd1. unfold Py.prec in *.
  destruct (Z_le_gt_dec s1 s2) as [Hle|Hgt].
  - rewrite <- (rounded_quotient_more W H s1 (Z.to_nat (s2 - s1)))
      by (unfold Py.prec; lia).
    f_equal. lia.
  - rewrite <- (rounded_quotient_more W H s2 (Z.to_nat (s1 - s2)))
      by (unfold Py.prec; lia).
    f_equal. lia.
Qed.

(** * Error bounds of the binary64 operations *)

Lemma loc_of_shr_record_of_loc (m : Z) (l : location) :
  loc_of_shr_record (shr_record_of_loc m l) = l.
Proof. destruct l as [|[ | | ]]; reflexivity. Qed.














(** * The size computation *)

Section OptimalSize.

Variables (c : Container) (f : Frame).
Hypothesis Hwidth : dimension (winfo_width c).
Hypothesis Hheight : dimension (winfo_height c).
Hypothesis Hcols : dimension (cols f).
Hypothesis Hrows : dimension (rows f).

(** Both aspect ratios are computed, one of the three comparisons holds,
    and each selects its branch of [_get_optimal_size]; the scaled
    dimension is a positive normal float whose ceiling is taken. *)
Lemma optimal_size_cases :
  exists v t,
    Py.int_truediv (cols f) (rows f) = Ok v /\
    Py.int_truediv (winfo_width c) (winfo_height c) = Ok t /\
    (Py.eqb v t = true \/ Py.ltb v t = true \/ Py.ltb t v = true) /\
    (Py.eqb v t = true ->
     _get_optimal_size c f = Ok (winfo_width c, winfo_height c)) /\
    (Py.ltb v t = true ->
     exists x w,
       Py.int_mul_float (winfo_height c) v = Ok x /\
       Py.math_ceil x = Ok w /\ 1 <= w /\
       _get_optimal_size c f = Ok (w, winfo_height c)) /\
    (Py.ltb t v = true ->
     exists y h,
       Py.truediv (Py.Int (winfo_width c)) (Py.Float v) = Ok y /\
       Py.math_ceil y = Ok h /\ 1 <= h /\
       _get_optimal_size c f = Ok (winfo_width c, h)).
Proof.
  destruct (int_truediv_dimension _ _ Hcols Hrows) as (v & Hv & Hnv & Hmv).
  destruct (int_truediv_dimension _ _ Hwidth Hheight) as (t & Ht & Hnt & Hmt).
  destruct (compare_pos_normal v t Hnv Hnt) as (cmp & Hvt & Htv).
  exists v, t. unfold _get_optimal_size. rewrite Hv, Ht. cbn [bind].
  unfold Py.eqb, Py.ltb, SFeqb, SFltb. rewrite Hvt, Htv.
  repeat split.
  - destruct cmp; cbn [CompOpp]; auto.
  - destruct cmp; intros H; try discriminate H. reflexivity.
  - destruct cmp; intros H; try discriminate H.
    destruct (int_mul_float_dimension _ v Hheight Hnv Hmv) as (x & Hx & Hnx).
    destruct (math_ceil_pos x Hnx) as (w & Hw & Hw1).
    exists x, w. rewrite Hx. cbn [bind]. rewrite Hw. cbn [bind]. auto.
  - destruct cmp; cbn [CompOpp]; intros H; try discriminate H.
    destruct (int_div_float_dimension _ v Hwidth Hnv Hmv) as (y & Hy & Hny).
    destruct (math_ceil_pos y Hny) as (h & Hh & Hh1).
    exists y, h. rewrite Hy. cbn [bind]. rewrite Hh. cbn [bind]. auto.
Qed.

End OptimalSize.

(** * From the error bounds to the size *)



Section Bounds.

Variables (M P : Z).
Hypothesis HM : 1 < M.
Hypothesis HP : 0 < P.




End Bounds.

Section OptimalSizeError.

Variables (c : Container) (f : Frame).
Hypothesis Hwidth : dimension (winfo_width c).
Hypothesis Hheight : dimension (winfo_height c).
Hypothesis Hcols : dimension (cols f).
Hypothesis Hrows : dimension (rows f).


End OptimalSizeError.




(** Whenever all four dimensions are positive the size computed has
    positive components, and [cv2.resize] accepts it. *)
Lemma resize_succeeds (c : Container) (f : Frame) :
  dimension (winfo_width c) -> dimension (winfo_height c) ->
  dimension (cols f) -> dimension (rows f) ->
  exists sz,
    _get_optimal_size c f = Ok sz /\ 1 <= fst sz /\ 1 <= snd sz /\
    cv2_resize f sz = Ok tt.
Proof.
  intros Hw Hh Hc Hr.
  assert (Hres : forall sz, 1 <= fst sz -> 1 <= snd sz ->
                            cv2_resize f sz = Ok tt).
  { intros sz Hw1 Hh1. unfold cv2_resize.
    destruct Hc as [Hc _], Hr as [Hr _].
    replace (cols f <=? 0) with false by (symmetry; apply Z.leb_gt; lia).
    replace (rows f <=? 0) with false by (symmetry; apply Z.leb_gt; lia).
    replace (fst sz <=? 0) with false by (symmetry; apply Z.leb_gt; lia).
    replace (snd sz <=? 0) with false by (symmetry; apply Z.leb_gt; lia).
    reflexivity. }
  assert (Hsz : exists sz, _get_optimal_size c f = Ok sz /\
                           1 <= fst sz /\ 1 <= snd sz).
  { destruct (optimal_size_cases c f Hw Hh Hc Hr)
      as (v & t & _ & _ & Htri & Heq & Hlt & Hgt).
    destruct Hw as [Hw _], Hh as [Hh _].
    destruct Htri as [H|[H|H]].
    - eexists. split; [exact (Heq H)|]. cbn [fst snd]. lia.
    - destruct (Hlt H) as (x & w & _ & _ & Hw1 & Hsz).
      eexists. split; [exact Hsz|]. cbn [fst snd]. lia.
    - destruct (Hgt H) as (y & h & _ & _ & Hh1 & Hsz).
      eexists. split; [exact Hsz|]. cbn [fst snd]. lia. }
  destruct Hsz as (sz & Hsz & H1 & H2).
  exists sz. auto.
Qed.

(** C5, as the code has it. For a frame and a display geometry whose
    dimensions are all at least 1 (a geometry of 1x1 included), the size
    computation succeeds and both components of the size are at least 1.
    Nothing is clamped: the bound comes from the ceiling of a positive
    value. *)
Theorem optimal_size_at_least_one (c : Container) (f : Frame) :
  dimension (winfo_width c) -> dimension (winfo_height c) ->
  dimension (cols f) -> dimension (rows f) ->
  exists w h, _get_optimal_size c f = Ok (w, h) /\ 1 <= w /\ 1 <= h.
Proof.
  intros Hw Hh Hc Hr.
  destruct (optimal_size_cases c f Hw Hh Hc Hr)
    as (v & t & _ & _ & Htri & Heq & Hlt & Hgt).
  destruct Hw as [Hw _], Hh as [Hh _].
  destruct Htri as [H|[H|H]].
  - exists (winfo_width c), (winfo_height c). split; [auto | lia].
  - destruct (Hlt H) as (x & w & _ & _ & Hw1 & Hres).
    exists w, (winfo_height c). split; [assumption | lia].
  - destruct (Hgt H) as (y & h & _ & _ & Hh1 & Hres).
    exists (winfo_width c), h. split; [assumption | lia].
Qed.

(** A 640x480 frame in a container of one pixel. *)
Lemma optimal_size_at_least_one_witness :
  dimension 1 /\ dimension 640 /\ dimension 480 /\
  exists w h,
    _get_optimal_size (mkContainer 1 1) (mkFrame 480 640 0) = Ok (w, h) /\
    1 <= w /\ 1 <= h.
Proof.
  assert (H1 : dimension 1) by (unfold dimension; lia).
  assert (H3 : dimension 640) by (unfold dimension; lia).
  assert (H4 : dimension 480) by (unfold dimension; lia).
  split; [exact H1|]. split; [exact H3|]. split; [exact H4|].
  exact (optimal_size_at_least_one (mkContainer 1 1) (mkFrame 480 640 0)
           H1 H1 H3 H4).
Defined.

(** C5 fails on the code: with a container of height zero the division
    [max_width / max_height] raises, and with a container of width zero the
    size computed is (0, 0). *)
Lemma optimal_size_zero_geometry :
  _get_optimal_size (mkContainer 640 0) (mkFrame 480 640 0)
    = Raise ZeroDivisionError /\
  _get_optimal_size (mkContainer 0 480) (mkFrame 480 640 0) = Ok (0, 0) /\
  ~ (forall c f, exists w h,
        _get_optimal_size c f = Ok (w, h) /\ 1 <= w /\ 1 <= h).
Proof.
  split; [reflexivity|]. split; [reflexivity|].
  intros H. destruct (H (mkContainer 640 0) (mkFrame 480 640 0)) as (w & h & Hres & _).
  discriminate Hres.
Qed.

(** * The drain loop of [update] *)

Lemma on_frame_received_fields (self : CV2Video) (f : Frame) :
  frame_number (_on_frame_received self f) = frame_number self + 1 /\
  _frame (_on_frame_received self f) = Some f /\
  _image_needs_update (_on_frame_received self f) = true /\
  container (_on_frame_received self f) = container self /\
  _frame_receiver (_on_frame_received self f) = _frame_receiver self /\
  _frame_collector (_on_frame_received self f) = _frame_collector self.
Proof. repeat split. Qed.

Lemma last_cons_default {A : Type} (l : list A) :
  forall x d d', last (x :: l) d = last (x :: l) d'.
Proof.
  induction l as [|y l IH]; intros x d d'; [reflexivity|].
  change (last (y :: l) d = last (y :: l) d'). apply IH.
Qed.

Section Received.

Variable frames : list Frame.

Lemma received_frame_number (self : CV2Video) :
  frame_number (fold_left _on_frame_received frames self)
  = frame_number self + Z.of_nat (List.length frames).
Proof.
  revert self. induction frames as [|f fs IH]; intros self.
  - simpl. lia.
  - cbn [fold_left List.length]. rewrite IH. cbn [_on_frame_received frame_number set_image_needs_update set_frame set_frame_number]. lia.
Qed.

Lemma received_frame (self : CV2Video) :
  _frame (fold_left _on_frame_received frames self)
  = last (map Some frames) (_frame self).
Proof.
  revert self. induction frames as [|f fs IH]; intros self.
  - reflexivity.
  - cbn [fold_left map]. rewrite IH.
    destruct fs as [|g gs]; [reflexivity|].
    cbn [map].
    transitivity (last (Some g :: map Some gs) (_frame self));
      [apply last_cons_default | reflexivity].
Qed.

Lemma received_container (self : CV2Video) :
  container (fold_left _on_frame_received frames self) = container self.
Proof.
  revert self. induction frames as [|f fs IH]; intros self;
    [reflexivity | cbn [fold_left]; rewrite IH; reflexivity].
Qed.

Lemma received_collector (self : CV2Video) :
  _frame_collector (fold_left _on_frame_received frames self)
  = _frame_collector self.
Proof.
  revert self. induction frames as [|f fs IH]; intros self;
    [reflexivity | cbn [fold_left]; rewrite IH; reflexivity].
Qed.

Lemma received_displayable (self : CV2Video) :
  displayable self -> Forall frame_ok frames ->
  displayable (fold_left _on_frame_received frames self).
Proof.
  intros [Hc Hf] Hall. split.
  - rewrite received_container. exact Hc.
  - rewrite received_frame. intros f Hlast.
    destruct frames as [|g gs]; [apply Hf; exact Hlast|].
    assert (Hin : In (Some f) (map Some (g :: gs))).
    { rewrite <- Hlast.
      destruct (exists_last (l := map Some (g :: gs)) ltac:(discriminate))
        as (l' & a & Heq).
      rewrite Heq, last_last. apply in_or_app. right. left. reflexivity. }
    apply in_map_iff in Hin. destruct Hin as (f' & [= ->] & Hin').
    rewrite Forall_forall in Hall. apply Hall. exact Hin'.
Qed.

End Received.

Lemma frames_of_map_Some (frames : list Frame) :
  frames_of (map Some frames) = frames /\
  existsb is_end (map Some frames) = false.
Proof.
  induction frames as [|f fs [IH1 IH2]]; [split; reflexivity|].
  split.
  - cbn [map frames_of flat_map app]. f_equal. exact IH1.
  - cbn [map existsb is_end orb]. exact IH2.
Qed.

(** The loop empties the pipe, hands every frame, in order, to
    [_on_frame_received], and sets [reached_end] as soon as a marker was
    among the messages. *)
Lemma drain_spec (pipe : list Msg) :
  forall self reached_end,
    drain pipe self reached_end
    = (fold_left _on_frame_received (frames_of pipe) self,
       reached_end || existsb is_end pipe, []).
Proof.
  induction pipe as [|m pipe' IH]; intros self reached_end.
  - cbn. rewrite orb_false_r. reflexivity.
  - destruct m as [f|]; cbn [drain]; rewrite IH.
    + reflexivity.
    + cbn [frames_of flat_map app existsb is_end orb].
      rewrite orb_true_r. reflexivity.
Qed.

Lemma update_image_fields (self : CV2Video) :
  frame_number (fst (_update_image self)) = frame_number self /\
  _frame (fst (_update_image self)) = _frame self /\
  _frame_collector (fst (_update_image self)) = _frame_collector self /\
  _frame_receiver (fst (_update_image self)) = _frame_receiver self /\
  _image_needs_update (fst (_update_image self)) = false.
Proof.
  unfold _update_image.
  destruct (_frame self) as [f|] eqn:Hf; cbn;
    destruct (container self) as [w|]; cbn; rewrite ?Hf; auto.
  destruct (_get_optimal_size (geometry w) f) as [sz|]; cbn; rewrite ?Hf; auto.
  destruct (cv2_resize f sz); cbn; rewrite ?Hf; auto.
Qed.

Lemma refresh_fields (self : CV2Video) :
  frame_number (fst (refresh self)) = frame_number self /\
  _frame (fst (refresh self)) = _frame self /\
  _frame_collector (fst (refresh self)) = _frame_collector self /\
  _frame_receiver (fst (refresh self)) = _frame_receiver self.
Proof.
  unfold refresh. destruct (_image_needs_update self); [|auto].
  pose proof (update_image_fields self) as (? & ? & ? & ? & _). auto.
Qed.

(** Rebuilding the image succeeds on a displayable object. *)
Lemma refresh_ok (self : CV2Video) :
  displayable self -> snd (refresh self) = Ok tt.
Proof.
  intros [(w & Hc & Hw & Hh) Hf]. unfold refresh, _update_image.
  destruct (_image_needs_update self); [|reflexivity].
  cbn [_frame set_image_needs_update container set_image].
  destruct (_frame self) as [f|] eqn:Hframe; rewrite Hc; [|reflexivity].
  destruct (Hf f eq_refl) as [Hcols Hrows].
  destruct (resize_succeeds (geometry w) f Hw Hh Hcols Hrows)
    as (sz & -> & _ & _ & ->).
  reflexivity.
Qed.

(** [update] on an object that has its end of the pipe. *)
Lemma update_spec (self : CV2Video) (pipe : list Msg) (conn : Connection) :
  _frame_receiver self = Some conn ->
  let received := fold_left _on_frame_received (frames_of pipe) self in
  update self pipe
  = (fst (refresh received), [],
     _ <- snd (refresh received) ;; Ok (negb (existsb is_end pipe))).
Proof.
  intros Hr received. unfold update. rewrite Hr, drain_spec.
  fold received. destruct (refresh received) as [self' r]. reflexivity.
Qed.

(** * Claims about [update] *)

(** The webcam object is what the constructor builds in the main
    process, without touching the backend. *)
Example webcam_constructed :
  __init__ true files (Some label) (Index 0) 0 true (Some 1920) (Some 1080)
    false 0 = (Ok webcam, []).
Proof. reflexivity. Qed.

(** C4. A burst of [M] frames queued before one call of [update], with no
    end-of-stream marker among them: the call hands all of them, in order,
    to [_on_frame_received], leaves the pipe empty, has added [M] to
    [frame_number], and leaves as [_frame] the last frame queued (the
    frame it had when [M] is zero); it does not report the end of the
    stream, and returns true whenever the image can be rebuilt. *)
Theorem drain_completeness (self : CV2Video) (frames : list Frame)
    (conn : Connection) :
  _frame_receiver self = Some conn ->
  exists self' outcome,
    update self (map Some frames) = (self', [], outcome) /\
    drain (map Some frames) self false
      = (fold_left _on_frame_received frames self, false, []) /\
    self' = fst (refresh (fold_left _on_frame_received frames self)) /\
    frame_number self' = frame_number self + Z.of_nat (List.length frames) /\
    _frame self' = last (map Some frames) (_frame self) /\
    outcome <> Ok false /\
    (displayable self -> Forall frame_ok frames -> outcome = Ok true).
Proof.
  intros Hr.
  pose proof (update_spec self (map Some frames) conn Hr) as Hu.
  pose proof (drain_spec (map Some frames) self false) as Hd.
  destruct (frames_of_map_Some frames) as [Hf He].
  rewrite Hf, He in Hu, Hd. cbv zeta in Hu. cbn [negb orb] in Hu, Hd.
  set (received := fold_left _on_frame_received frames self) in *.
  destruct (refresh_fields received) as (Hn & Hfr & _ & _).
  eexists. eexists. split; [exact Hu|].
  split; [exact Hd|]. split; [reflexivity|].
  split; [rewrite Hn; apply received_frame_number|].
  split; [rewrite Hfr; apply received_frame|].
  split.
  - destruct (snd (refresh received)); discriminate.
  - intros Hdisp Hall.
    rewrite (refresh_ok received (received_displayable frames self Hdisp Hall)).
    reflexivity.
Qed.

(** Two frames arrive before one call on the webcam object. *)
Lemma drain_completeness_witness :
  _frame_receiver webcam = Some ReadEnd /\
  exists self' outcome,
    update webcam [Some (mkFrame 480 640 1); Some (mkFrame 480 640 2)]
      = (self', [], outcome) /\
    frame_number self' = 2 /\
    _frame self' = Some (mkFrame 480 640 2).
Proof.
  split; [reflexivity|].
  destruct (drain_completeness webcam [mkFrame 480 640 1; mkFrame 480 640 2]
              ReadEnd eq_refl)
    as (self' & outcome & Hu & _ & _ & Hn & Hf & _).
  exists self', outcome. split; [exact Hu|]. split; [exact Hn | exact Hf].
Defined.

(** C3 fails on the code: with a frame queued behind the marker, one call
    of [update] receives both messages; the frame behind the marker is
    counted and becomes the current frame, and the pipe is left empty. *)
Lemma update_reads_past_marker :
  let '(self', pipe', outcome) := update webcam [None; Some (mkFrame 480 640 7)] in
  pipe' = [] /\
  frame_number self' = frame_number webcam + 1 /\
  _frame self' = Some (mkFrame 480 640 7) /\
  outcome = Ok false.
Proof. vm_compute. repeat split. Qed.

(** C3, as the code has it. Whatever is queued, one call of [update]
    receives every message, those behind an end-of-stream marker too: the
    pipe is left empty and every frame queued, in order, has gone through
    [_on_frame_received]; a marker among the messages is recorded, so that
    the call cannot return true. *)
Theorem update_drains_everything (self : CV2Video) (pipe : list Msg)
    (conn : Connection) :
  _frame_receiver self = Some conn ->
  exists self' outcome,
    update self pipe = (self', [], outcome) /\
    self' = fst (refresh (fold_left _on_frame_received (frames_of pipe) self)) /\
    frame_number self'
      = frame_number self + Z.of_nat (List.length (frames_of pipe)) /\
    (existsb is_end pipe = true -> outcome <> Ok true) /\
    (existsb is_end pipe = true -> displayable self ->
     Forall frame_ok (frames_of pipe) -> outcome = Ok false).
Proof.
  intros Hr. pose proof (update_spec self pipe conn Hr) as Hu. cbv zeta in Hu.
  set (received := fold_left _on_frame_received (frames_of pipe) self) in *.
  destruct (refresh_fields received) as (Hn & _).
  eexists. eexists. split; [exact Hu|]. split; [reflexivity|].
  split; [rewrite Hn; apply received_frame_number|].
  split.
  - intros ->. destruct (snd (refresh received)); discriminate.
  - intros -> Hdisp Hall.
    rewrite (refresh_ok received (received_displayable _ self Hdisp Hall)).
    reflexivity.
Qed.

(** A marker between two frames. *)
Lemma update_drains_everything_witness :
  _frame_receiver webcam = Some ReadEnd /\
  exists self' outcome,
    update webcam [Some (mkFrame 480 640 1); None; Some (mkFrame 480 640 2)]
      = (self', [], outcome) /\
    frame_number self' = 2 /\ outcome <> Ok true.
Proof.
  split; [reflexivity|].
  destruct (update_drains_everything webcam
              [Some (mkFrame 480 640 1); None; Some (mkFrame 480 640 2)]
              ReadEnd eq_refl)
    as (self' & outcome & Hu & _ & Hn & He & _).
  exists self', outcome. split; [exact Hu|]. split; [exact Hn | exact (He eq_refl)].
Defined.

(** C2 fails on the code: a call of [update] that receives the marker
    returns false, and the next call, on the pipe the first one left
    empty, returns true. *)
Lemma update_forgets_end_of_stream :
  let '(self1, pipe1, outcome1) := update webcam [None] in
  outcome1 = Ok false /\ pipe1 = [] /\
  snd (update self1 pipe1) = Ok true.
Proof. vm_compute. repeat split. Qed.

(** C2, as the code has it. On an object that can rebuild its image,
    [update] returns false exactly when an end-of-stream marker is among
    the messages it receives in that call; what earlier calls received
    plays no part, and a call that finds the pipe empty returns true. *)
Theorem update_reports_marker_of_this_call (self : CV2Video)
    (pipe : list Msg) (conn : Connection) :
  _frame_receiver self = Some conn ->
  displayable self -> Forall frame_ok (frames_of pipe) ->
  snd (update self pipe) = Ok (negb (existsb is_end pipe)) /\
  snd (update self []) = Ok true.
Proof.
  intros Hr Hdisp Hall. split.
  - rewrite (update_spec self pipe conn Hr). cbn [snd].
    rewrite (refresh_ok _ (received_displayable _ self Hdisp Hall)).
    reflexivity.
  - rewrite (update_spec self [] conn Hr). cbn [snd frames_of flat_map fold_left].
    rewrite (refresh_ok _ Hdisp). reflexivity.
Qed.

Lemma displayable_webcam : displayable webcam.
Proof.
  split.
  - exists label. split; [reflexivity|]. unfold dimension; cbn. lia.
  - intros f H. discriminate H.
Defined.

(** A frame and then the marker: false; nothing queued: true. *)
Lemma update_reports_marker_of_this_call_witness :
  _frame_receiver webcam = Some ReadEnd /\
  displayable webcam /\
  Forall frame_ok (frames_of [Some (mkFrame 480 640 1); None]) /\
  snd (update webcam [Some (mkFrame 480 640 1); None]) = Ok false /\
  snd (update webcam []) = Ok true.
Proof.
  assert (Hall : Forall frame_ok (frames_of [Some (mkFrame 480 640 1); None])).
  { constructor; [|constructor]. unfold frame_ok, dimension; cbn. lia. }
  split; [reflexivity|]. split; [exact displayable_webcam|].
  split; [exact Hall|].
  exact (update_reports_marker_of_this_call webcam
           [Some (mkFrame 480 640 1); None] ReadEnd eq_refl
           displayable_webcam Hall).
Defined.

(** * The frame count over time *)

Lemma play_frame_number (self : CV2Video) :
  frame_number (fst (play self)) = frame_number self.
Proof.
  unfold play. destruct (_frame_collector self); [reflexivity|].
  cbn [container set_frame_collector]. destruct (container self); reflexivity.
Qed.

Lemma pause_frame_number (self : CV2Video) :
  frame_number (fst (pause self)) = frame_number self.
Proof.
  unfold pause. destruct (_frame_collector self); [|reflexivity].
  destruct (container self); reflexivity.
Qed.

Lemma toggle_frame_number (self : CV2Video) :
  frame_number (fst (toggle_play_pause self)) = frame_number self.
Proof.
  unfold toggle_play_pause. destruct (_frame_collector self);
    [apply pause_frame_number | apply play_frame_number].
Qed.

Lemma update_frame_number (self : CV2Video) (queued : list Msg) :
  frame_number self <= frame_number (fst (fst (update self queued))).
Proof.
  destruct (_frame_receiver self) as [conn|] eqn:Hr.
  - rewrite (update_spec self queued conn Hr). cbn [fst].
    destruct (refresh_fields (fold_left _on_frame_received (frames_of queued) self))
      as (-> & _).
    rewrite received_frame_number. lia.
  - unfold update. rewrite Hr. cbn [fst]. lia.
Qed.

Lemma resize_frame_number (self : CV2Video) (w h : Z) :
  frame_number (resize self w h) = frame_number self.
Proof. unfold resize. destruct (container self); reflexivity. Qed.

(** Every step but [reset] leaves the frame count where it was or
    raises it. *)
Lemma step_frame_number (op : Op) (s : World) :
  is_reset op = false ->
  frame_number (video s) <= frame_number (video (step op s)).
Proof.
  destruct op; cbn [is_reset step]; intros H; try discriminate H; cbn [video].
  - rewrite play_frame_number. lia.
  - rewrite pause_frame_number. lia.
  - rewrite toggle_frame_number. lia.
  - pose proof (update_frame_number (video s) (pipe s)) as Hu.
    destruct (update (video s) (pipe s)) as [[self' pipe'] r]. exact Hu.
  - lia.
  - rewrite resize_frame_number. lia.
Qed.

Lemma run_frame_number (ops : list Op) :
  forall s, existsb is_reset ops = false ->
    frame_number (video s) <= frame_number (video (run ops s)).
Proof.
  induction ops as [|op ops IH]; intros s H; cbn [run fold_left].
  - lia.
  - cbn [existsb] in H. apply orb_false_iff in H. destruct H as [Hop Hops].
    pose proof (step_frame_number op s Hop).
    pose proof (IH (step op s) Hops). unfold run in *. lia.
Qed.

Lemma reset_zero (self : CV2Video) :
  container self <> None ->
  snd (reset self) = Ok tt /\ frame_number (fst (reset self)) = 0.
Proof.
  intros Hc. unfold reset, pause.
  destruct (_frame_collector self); [|split; reflexivity].
  destruct (container self) as [w|]; [split; reflexivity | contradiction].
Qed.

(** C8. Over every sequence of [play], [pause], [toggle_play_pause] and
    [update] calls (with messages arriving and the container being
    resized in between) [frame_number] never decreases; a step that lowers
    it is a [reset]; and [reset] sets it to exactly 0. *)
Theorem monotonic_frame_count :
  (forall ops s, existsb is_reset ops = false ->
     frame_number (video s) <= frame_number (video (run ops s))) /\
  (forall op s, frame_number (video (step op s)) < frame_number (video s) ->
     op = OpReset) /\
  (forall self, container self <> None ->
     snd (reset self) = Ok tt /\ frame_number (fst (reset self)) = 0).
Proof.
  split; [|split].
  - intros ops s H. apply run_frame_number. exact H.
  - intros op s H. destruct (is_reset op) eqn:Hop.
    + destruct op; try discriminate Hop. reflexivity.
    + pose proof (step_frame_number op s Hop). lia.
  - exact reset_zero.
Qed.

(** Play, two frames and the marker arrive, update, pause, play again,
    one more frame, update: the count goes from 0 to 3; a reset then puts
    it back to 0. *)
Lemma monotonic_frame_count_witness :
  let ops := [OpPlay; OpSend (Some (mkFrame 480 640 0));
              OpSend (Some (mkFrame 480 640 1)); OpSend None; OpUpdate;
              OpPause; OpToggle; OpSend (Some (mkFrame 480 640 2)); OpUpdate] in
  existsb is_reset ops = false /\
  frame_number webcam <= frame_number (video (run ops (mkWorld webcam []))) /\
  frame_number (video (run ops (mkWorld webcam []))) = 3 /\
  frame_number (fst (reset (video (run ops (mkWorld webcam []))))) = 0.
Proof.
  intros ops. split; [reflexivity|].
  destruct monotonic_frame_count as (Hmono & _ & Hreset).
  split; [exact (Hmono ops (mkWorld webcam []) eq_refl)|].
  split; [reflexivity|].
  apply Hreset. discriminate.
Defined.

(** * The producer *)

(** The interval is always computed: zero is replaced by the integer 1
    before the division. *)
Lemma frame_interval_spec (capture : Capture) :
  frame_interval capture
  = Ok (if Py.is_zero (fps capture) then one
        else SFdiv Py.prec Py.emax one (fps capture)).
Proof.
  unfold frame_interval, Py.or_, Py.truthy.
  destruct (fps capture) as [s|s| |s m e]; reflexivity.
Qed.

Lemma pace_sends_nothing (time : nat -> Py.float) (pacing : option Pacing) :
  sent_messages (snd (pace time pacing)) = [].
Proof.
  destruct pacing as [p|]; [|reflexivity]. cbn [pace snd].
  destruct (Py.gt0 _); reflexivity.
Qed.

Lemma pace_sleeps_positive (time : nat -> Py.float) (pacing : option Pacing) :
  Forall (fun d => Py.gt0 d = true) (sleeps (snd (pace time pacing))).
Proof.
  destruct pacing as [p|]; [|constructor]. cbn [pace snd].
  destruct (Py.gt0 _) eqn:H; [|constructor].
  cbn. constructor; [exact H | constructor].
Qed.

Lemma sent_messages_app (xs ys : list Event) :
  sent_messages (xs ++ ys) = sent_messages xs ++ sent_messages ys.
Proof. apply flat_map_app. Qed.

Lemma sleeps_app (xs ys : list Event) :
  sleeps (xs ++ ys) = sleeps xs ++ sleeps ys.
Proof. apply flat_map_app. Qed.

Lemma deadline_step (interval start : Py.float) (k : nat) :
  deadline interval (Py.add start interval) k
  = deadline interval start (S k).
Proof.
  unfold deadline. symmetry.
  exact (Nat.iter_succ_r k Py.float (fun t => Py.add t interval) start).
Qed.

Lemma capture_events_quiet (self : CV2Video) (capture : Capture) :
  sleeps (capture_events self capture) = [] /\
  sent_messages (capture_events self capture) = [].
Proof.
  unfold capture_events. cbn [sleeps sent_messages flat_map app].
  induction (settings capture) as [|s l [IH1 IH2]]; [split; reflexivity|].
  cbn [map flat_map app]. split; assumption.
Qed.

Section ReadLoop.

Variables (sender : Sender) (time : nat -> Py.float).

(** Whatever the clock says and however the run ends, the producer only
    sleeps for durations above zero. *)
Lemma read_loop_sleeps_positive (frames : list Frame) :
  forall pacing sent,
    Forall (fun d => Py.gt0 d = true)
      (sleeps (fst (fst (read_loop frames sender time pacing sent)))).
Proof.
  induction frames as [|f rest IH]; intros pacing sent; cbn [read_loop].
  - destruct (closed sender); [constructor|].
    destruct (peer_open sender sent); cbn; constructor.
  - destruct (closed sender); [constructor|].
    destruct (peer_open sender sent); [|cbn; constructor].
    pose proof (pace_sleeps_positive time pacing) as Hp.
    destruct (pace time pacing) as [pacing' slept]. cbn [snd] in Hp.
    specialize (IH pacing' (S sent)).
    destruct (read_loop rest sender time pacing' (S sent)) as [[evs out] final].
    cbn [fst] in *.
    change (EvRead :: EvSend (Some f) :: slept ++ evs)
      with ([EvRead; EvSend (Some f)] ++ slept ++ evs).
    rewrite !sleeps_app. cbn [sleeps flat_map app].
    apply Forall_app. split; assumption.
Qed.

(** With pacing, the deadline the loop ends with is the one it started
    from plus one interval for each frame it sent: the clock has no part
    in it. *)
Lemma read_loop_deadline (frames : list Frame) :
  forall p sent,
    exists final,
      snd (read_loop frames sender time (Some p) sent) = Some final /\
      duration_per_frame final = duration_per_frame p /\
      next_frame_time final
      = deadline (duration_per_frame p) (next_frame_time p)
          (List.length (frames_of
             (sent_messages (fst (fst (read_loop frames sender time (Some p) sent)))))).
Proof.
  induction frames as [|f rest IH]; intros p sent; cbn [read_loop].
  - destruct (closed sender); [exists p; repeat split|].
    destruct (peer_open sender sent); exists p; repeat split.
  - destruct (closed sender); [exists p; repeat split|].
    destruct (peer_open sender sent); [|exists p; repeat split].
    cbn [pace].
    set (p' := mkPacing (duration_per_frame p)
                 (Py.add (next_frame_time p) (duration_per_frame p))
                 (S (ticks p))).
    set (slept := if Py.gt0 _ then _ else _).
    assert (Hslept : sent_messages slept = [])
      by (unfold slept; destruct (Py.gt0 _); reflexivity).
    destruct (IH p' (S sent)) as (final & Hfinal & Hd & Hn).
    destruct (read_loop rest sender time (Some p') (S sent)) as [[evs out] final'].
    cbn [fst snd] in *. exists final. split; [exact Hfinal|].
    split; [exact Hd|]. rewrite Hn.
    change (EvRead :: EvSend (Some f) :: slept ++ evs)
      with ([EvRead; EvSend (Some f)] ++ slept ++ evs).
    rewrite !sent_messages_app, Hslept.
    cbn [sent_messages flat_map app frames_of List.length].
    unfold p'. cbn [duration_per_frame next_frame_time].
    apply deadline_step.
Qed.

(** A closed sender ends the loop before anything is read. *)
Lemma read_loop_closed (frames : list Frame) (pacing : option Pacing)
    (sent : nat) :
  closed sender = true ->
  read_loop frames sender time pacing sent = ([], Returned, pacing).
Proof. intros H. destruct frames; cbn [read_loop]; rewrite H; reflexivity. Qed.

(** When the [k]-th send from now is the first to fail, the loop sends
    the [k] frames before it and leaves with [BrokenPipeError]. *)
Lemma read_loop_broken_pipe (k : nat) :
  forall frames pacing sent,
    closed sender = false ->
    (forall j, (j < k)%nat -> peer_open sender (sent + j) = true) ->
    peer_open sender (sent + k) = false ->
    (k <= List.length frames)%nat ->
    exists evs final,
      read_loop frames sender time pacing sent
      = (evs, Raised BrokenPipeError, final) /\
      sent_messages evs = map Some (firstn k frames).
Proof.
  induction k as [|k IH]; intros frames pacing sent Hc Hopen Hfail Hlen.
  - rewrite Nat.add_0_r in Hfail.
    destruct frames as [|f rest]; cbn [read_loop]; rewrite Hc, Hfail;
      eexists; eexists; split; reflexivity.
  - destruct frames as [|f rest]; [cbn in Hlen; lia|].
    cbn [read_loop]. rewrite Hc.
    pose proof (Hopen 0%nat ltac:(lia)) as H0. rewrite Nat.add_0_r in H0.
    rewrite H0.
    pose proof (pace_sends_nothing time pacing) as Hp.
    destruct (pace time pacing) as [pacing' slept]. cbn [snd] in Hp.
    destruct (IH rest pacing' (S sent) Hc) as (evs & final & Hloop & Hsent).
    + intros j Hj. replace (S sent + j)%nat with (sent + S j)%nat by lia.
      apply Hopen. lia.
    + replace (S sent + k)%nat with (sent + S k)%nat by lia. exact Hfail.
    + cbn [List.length] in Hlen. lia.
    + rewrite Hloop. eexists. eexists. split; [reflexivity|].
      change (EvRead :: EvSend (Some f) :: slept ++ evs)
        with ([EvRead; EvSend (Some f)] ++ slept ++ evs).
      rewrite !sent_messages_app, Hp, Hsent. reflexivity.
Qed.

(** With both ends of the pipe open the loop sends every frame the
    capture has left, then the marker, and returns. *)
Lemma read_loop_open (frames : list Frame) :
  forall pacing sent,
    closed sender = false ->
    (forall n, peer_open sender n = true) ->
    exists evs final,
      read_loop frames sender time pacing sent = (evs, Returned, final) /\
      sent_messages evs = map Some frames ++ [None].
Proof.
  induction frames as [|f rest IH]; intros pacing sent Hc Hopen;
    cbn [read_loop]; rewrite Hc, Hopen.
  - eexists. eexists. split; reflexivity.
  - pose proof (pace_sends_nothing time pacing) as Hp.
    destruct (pace time pacing) as [pacing' slept]. cbn [snd] in Hp.
    destruct (IH pacing' (S sent) Hc Hopen) as (evs & final & Hloop & Hsent).
    rewrite Hloop. eexists. eexists. split; [reflexivity|].
    change (EvRead :: EvSend (Some f) :: slept ++ evs)
      with ([EvRead; EvSend (Some f)] ++ slept ++ evs).
    rewrite !sent_messages_app, Hp, Hsent. reflexivity.
Qed.

(** With both ends of the pipe open, a paced loop that is [k] frames into
    its run does what the specification says of the frames left. *)
Lemma read_loop_paced (interval start : Py.float) (frames : list Frame) :
  forall k p sent,
    closed sender = false ->
    (forall n, peer_open sender n = true) ->
    duration_per_frame p = interval ->
    next_frame_time p = deadline interval start k ->
    ticks p = S k ->
    exists final,
      read_loop frames sender time (Some p) sent
      = (paced_trace interval start time k frames, Returned, Some final).
Proof.
  induction frames as [|f rest IH]; intros k p sent Hc Hopen Hd Hn Ht;
    cbn [read_loop]; rewrite Hc, Hopen.
  - exists p. reflexivity.
  - cbn [pace]. rewrite Hd, Hn, Ht.
    set (p' := mkPacing interval (Py.add (deadline interval start k) interval)
                 (S (S k))).
    destruct (IH (S k) p' (S sent) Hc Hopen eq_refl eq_refl eq_refl)
      as (final & Hloop).
    rewrite Hloop. exists final. reflexivity.
Qed.

End ReadLoop.

(** On a pipe that stays open the producer delivers what its capture has
    left, in order, and then the marker. *)
Lemma collect_frames_open (backend : Backend) (self : CV2Video)
    (time : nat -> Py.float) :
  exists evs rest,
    _collect_frames backend self open_sender time = (evs, Returned) /\
    evs = capture_events self (_create_capture backend self) ++ rest /\
    sent_messages evs
    = map Some (remaining (_create_capture backend self)) ++ [None].
Proof.
  unfold _collect_frames.
  set (capture := _create_capture backend self).
  assert (Hpacing : exists pacing,
            (if use_fps_delay self
             then d <- frame_interval capture ;;
                  Ok (Some (mkPacing d (time 0%nat) 1))
             else Ok None) = Ok pacing).
  { destruct (use_fps_delay self); [|eexists; reflexivity].
    rewrite frame_interval_spec. eexists. reflexivity. }
  destruct Hpacing as (pacing & ->).
  destruct (read_loop_open open_sender time (remaining capture) pacing 0
              eq_refl (fun _ => eq_refl)) as (evs & final & -> & Hsent).
  eexists. eexists. split; [reflexivity|]. split; [reflexivity|].
  rewrite !sent_messages_app, Hsent.
  destruct (capture_events_quiet self capture) as [_ ->].
  cbn [sent_messages flat_map app]. rewrite app_nil_r. reflexivity.
Qed.


(** C6. With pacing enabled the producer takes as interval 1 divided by
    the frame rate the backend reports, and 1 divided by 1 when that rate is
    zero; each iteration replaces the deadline by the deadline plus the
    interval, so that after [k] frames it is the first clock reading plus
    [k] intervals, whatever the clock said in between; the producer sleeps
    only for durations above zero.  On a pipe that stays open the whole
    run is fixed: for the [k]-th frame a read, a send and, when the clock
    read after the send is before the first reading plus [k] intervals, a
    sleep for exactly the difference; then a read and the marker, and the
    producer returns. *)
Theorem pacing (backend : Backend) (self : CV2Video) (sender : Sender)
    (time : nat -> Py.float) :
  use_fps_delay self = true ->
  let capture := _create_capture backend self in
  exists interval evs out final,
    frame_interval capture = Ok interval /\
    interval = (if Py.is_zero (fps capture) then one
                else SFdiv Py.prec Py.emax one (fps capture)) /\
    _collect_frames backend self sender time
    = (capture_events self capture ++ evs ++ [EvRelease], out) /\
    read_loop (remaining capture) sender time
      (Some (mkPacing interval (time 0%nat) 1)) 0
    = (evs, out, Some final) /\
    next_frame_time final
    = deadline interval (time 0%nat)
        (List.length (frames_of (sent_messages evs))) /\
    Forall (fun d => Py.gt0 d = true) (sleeps evs) /\
    (closed sender = false -> (forall n, peer_open sender n = true) ->
     evs = paced_trace interval (time 0%nat) time 0 (remaining capture) /\
     out = Returned).
Proof.
  intros Hdelay capture.
  pose proof (frame_interval_spec capture) as Hi.
  set (interval := if Py.is_zero (fps capture) then one
                   else SFdiv Py.prec Py.emax one (fps capture)) in *.
  set (p0 := mkPacing interval (time 0%nat) 1).
  destruct (read_loop_deadline sender time (remaining capture) p0 0)
    as (final & Hfinal & _ & Hn).
  pose proof (read_loop_sleeps_positive sender time (remaining capture) (Some p0) 0)
    as Hs.
  pose proof (fun Hc Hopen =>
                read_loop_paced sender time interval (time 0%nat)
                  (remaining capture) 0 p0 0 Hc Hopen eq_refl eq_refl eq_refl)
    as Hopen.
  destruct (read_loop (remaining capture) sender time (Some p0) 0)
    as [[evs out] final'] eqn:Hloop.
  cbn [fst snd] in *. subst final'.
  exists interval, evs, out, final.
  split; [exact Hi|]. split; [reflexivity|].
  split.
  { unfold _collect_frames. rewrite Hdelay. fold capture. rewrite Hi.
    cbn [bind]. fold p0. rewrite Hloop. reflexivity. }
  split; [exact Hloop|]. split; [exact Hn|]. split; [exact Hs|].
  intros Hc Hall. destruct (Hopen Hc Hall) as (final' & Heq).
  injection Heq as -> -> _. split; reflexivity.
Qed.

(** The producer on the clip from its start, 25 frames a second, with a
    clock that runs unevenly: the first send ends after the first
    deadline (0.04) and nothing is slept; the second ends at 0.07, before
    the second deadline, which is 0.04 + 0.04 and not 0.05 + 0.04, and the
    producer sleeps for the difference, 0.01 seconds; the third ends
    late again. *)
Lemma pacing_witness :
  use_fps_delay producer_at_0 = true /\
  closed open_sender = false /\
  (forall n, peer_open open_sender n = true) /\
  exists interval,
    frame_interval (_create_capture files producer_at_0) = Ok interval /\
    _collect_frames files producer_at_0 open_sender jittery_clock
    = (capture_events producer_at_0 (_create_capture files producer_at_0)
       ++ [EvRead; EvSend (Some (mkFrame 480 640 0));
           EvRead; EvSend (Some (mkFrame 480 640 1));
           EvSleep (Py.sub (Py.add (Py.add (jittery_clock 0%nat) interval)
                              interval)
                      (jittery_clock 2%nat));
           EvRead; EvSend (Some (mkFrame 480 640 2));
           EvRead; EvSend None]
       ++ [EvRelease], Returned).
Proof.
  split; [reflexivity|]. split; [reflexivity|].
  assert (Hall : forall n, peer_open open_sender n = true) by reflexivity.
  split; [exact Hall|].
  destruct (pacing files producer_at_0 open_sender jittery_clock eq_refl)
    as (interval & evs & out & final & Hi & Hival & Hrun & _ & _ & _ & Htrace).
  destruct (Htrace eq_refl Hall) as [Hevs Hout].
  exists interval. split; [exact Hi|].
  rewrite Hrun, Hout, Hevs, Hival. vm_compute. reflexivity.
Defined.

(** What that run does. *)
Example paced_run :
  _collect_frames files producer_at_2 open_sender still_clock
  = ([EvCapture (Filename "promi_s0_t0_l3.avi") 0;
      EvSet CAP_PROP_POS_FRAMES 2;
      EvRead; EvSend (Some (mkFrame 480 640 2));
      EvSleep (S754_finite false 5764607523034235 (-57));
      EvRead; EvSend None; EvRelease], Returned).
Proof. vm_compute. reflexivity. Qed.

(** C9 fails on the code: when the reading end is gone at the first send,
    the producer does not return; [BrokenPipeError] leaves
    [_collect_frames], after the capture was released. *)
Lemma broken_pipe_is_raised :
  _collect_frames files producer_at_2 (mkSender false (fun _ => false))
    still_clock
  = ([EvCapture (Filename "promi_s0_t0_l3.avi") 0;
      EvSet CAP_PROP_POS_FRAMES 2; EvRead; EvRelease],
     Raised BrokenPipeError).
Proof. vm_compute. reflexivity. Qed.

(** C9, as the code has it. The producer leaves its loop silently when it
    finds its own end of the pipe closed at the loop test: nothing is read
    or sent, the capture is released and the call returns.  A send that
    fails is not caught: the frames before it have been sent, the capture
    is released, and [BrokenPipeError] leaves [_collect_frames]. *)
Theorem producer_exit (backend : Backend) (self : CV2Video)
    (sender : Sender) (time : nat -> Py.float) (k : nat) :
  let capture := _create_capture backend self in
  (closed sender = true ->
   _collect_frames backend self sender time
   = (capture_events self capture ++ [EvRelease], Returned)) /\
  (closed sender = false ->
   (forall j, (j < k)%nat -> peer_open sender j = true) ->
   peer_open sender k = false ->
   (k <= List.length (remaining capture))%nat ->
   exists evs,
     _collect_frames backend self sender time
     = (capture_events self capture ++ evs ++ [EvRelease],
        Raised BrokenPipeError) /\
     sent_messages evs = map Some (firstn k (remaining capture))).
Proof.
  intros capture.
  assert (Hpacing : exists pacing,
            (if use_fps_delay self
             then d <- frame_interval capture ;;
                  Ok (Some (mkPacing d (time 0%nat) 1))
             else Ok None) = Ok pacing).
  { destruct (use_fps_delay self); [|eexists; reflexivity].
    rewrite frame_interval_spec. eexists. reflexivity. }
  destruct Hpacing as (pacing & Hpacing).
  split.
  - intros Hclosed. unfold _collect_frames. fold capture.
    rewrite Hpacing, (read_loop_closed sender time _ _ _ Hclosed).
    reflexivity.
  - intros Hclosed Hopen Hfail Hlen.
    destruct (read_loop_broken_pipe sender time k (remaining capture) pacing 0
                Hclosed Hopen Hfail Hlen) as (evs & final & Hloop & Hsent).
    exists evs. split; [|exact Hsent].
    unfold _collect_frames. fold capture. rewrite Hpacing, Hloop. reflexivity.
Qed.

(** On the three-frame clip: a closed sender, and a reading end that goes
    away after two frames. *)
Lemma producer_exit_witness :
  closed (mkSender true (fun _ => true)) = true /\
  snd (_collect_frames files producer_at_0 (mkSender true (fun _ => true))
         still_clock) = Returned /\
  closed (mkSender false (fun n => Nat.ltb n 2)) = false /\
  exists evs,
    _collect_frames files producer_at_0 (mkSender false (fun n => Nat.ltb n 2))
      still_clock
    = (capture_events producer_at_0 (_create_capture files producer_at_0)
         ++ evs ++ [EvRelease], Raised BrokenPipeError) /\
    sent_messages evs = [Some (mkFrame 480 640 0); Some (mkFrame 480 640 1)].
Proof.
  split; [reflexivity|].
  destruct (producer_exit files producer_at_0 (mkSender true (fun _ => true))
              still_clock 0) as [Hsilent _].
  split; [rewrite (Hsilent eq_refl); reflexivity|].
  split; [reflexivity|].
  destruct (producer_exit files producer_at_0
              (mkSender false (fun n => Nat.ltb n 2)) still_clock 2)
    as [_ Hraise].
  apply Hraise.
  - reflexivity.
  - intros j Hj. apply Nat.ltb_lt. exact Hj.
  - reflexivity.
  - cbn. lia.
Defined.

(** * Resuming, and the eager first frame *)

Lemma unpickle_reduce (backend : Backend) (self : CV2Video) :
  exists child,
    unpickle backend (__reduce__ self) = Ok child /\
    filename_or_index child = filename_or_index self /\
    api_preference child = api_preference self /\
    width child = width self /\
    height child = height self /\
    use_fps_delay child = use_fps_delay self /\
    frame_number child = frame_number self /\
    container child = None /\
    _frame_receiver child = None /\
    _frame_sender child = None.
Proof. eexists. split; [reflexivity|]. repeat split. Qed.

(** With a positive frame number the last property [_create_capture] sets
    is the frame position, and the capture starts that many frames into
    the source. *)
Lemma create_capture_position (backend : Backend) (self : CV2Video) :
  0 < frame_number self ->
  (exists before,
     settings (_create_capture backend self)
     = before ++ [(CAP_PROP_POS_FRAMES, frame_number self)]) /\
  remaining (_create_capture backend self)
  = skipn (Z.to_nat (frame_number self))
      (stream backend (filename_or_index self) (api_preference self)).
Proof.
  intros H. unfold _create_capture.
  apply Z.ltb_lt in H. rewrite H.
  split.
  - eexists. cbn [capture_set settings]. reflexivity.
  - cbn [capture_set remaining]. f_equal.
    destruct (width self), (height self); reflexivity.
Qed.

(** C7. A controller paused at frame number [N > 0]: [play] starts a
    process on the pickled object, which carries [N]; the object rebuilt
    from it in the producer has frame number [N], and the capture it opens
    has its frame position set to [N], so that the frames it delivers are
    those of the source from position [N] on. *)
Theorem resume_offset (backend : Backend) (self : CV2Video) (N : Z) :
  _frame_collector self = None -> frame_number self = N -> 0 < N ->
  exists p child,
    _frame_collector (fst (play self)) = Some p /\
    target_self p = __reduce__ self /\
    p_frame_number (target_self p) = N /\
    unpickle backend (target_self p) = Ok child /\
    frame_number child = N /\
    (exists before,
       settings (_create_capture backend child)
       = before ++ [(CAP_PROP_POS_FRAMES, N)]) /\
    remaining (_create_capture backend child)
    = skipn (Z.to_nat N)
        (stream backend (filename_or_index self) (api_preference self)) /\
    (forall time, exists evs,
       _collect_frames backend child open_sender time = (evs, Returned) /\
       In (EvSet CAP_PROP_POS_FRAMES N) evs /\
       sent_messages evs
       = map Some (skipn (Z.to_nat N)
                     (stream backend (filename_or_index self)
                        (api_preference self))) ++ [None]).
Proof.
  intros Hc Hn HN.
  destruct (unpickle_reduce backend self)
    as (child & Hchild & Hsrc & Hapi & _ & _ & _ & Hfn & _).
  exists (mkProcess (__reduce__ self) (_frame_sender self)), child.
  split.
  { unfold play. rewrite Hc. cbn [container set_frame_collector].
    destruct (container self); reflexivity. }
  split; [reflexivity|]. split; [exact Hn|]. split; [exact Hchild|].
  split; [congruence|].
  assert (Hpos : 0 < frame_number child) by lia.
  destruct (create_capture_position backend child Hpos) as [Hset Hrem].
  rewrite Hfn, Hn in Hset. rewrite Hfn, Hn, Hsrc, Hapi in Hrem.
  split; [exact Hset|]. split; [exact Hrem|].
  intros time.
  destruct (collect_frames_open backend child time)
    as (evs & rest & Hrun & Hevs & Hsent).
  exists evs. split; [exact Hrun|]. split; [|rewrite Hsent, Hrem; reflexivity].
  destruct Hset as (before & Hset).
  rewrite Hevs. apply in_or_app. left.
  unfold capture_events. right. rewrite Hset, map_app.
  apply in_or_app. right. left. reflexivity.
Qed.

(** The file example of the script, paused after two frames. *)
Lemma resume_offset_witness :
  _frame_collector video_at_2 = None /\ frame_number video_at_2 = 2 /\ 0 < 2 /\
  exists p child,
    _frame_collector (fst (play video_at_2)) = Some p /\
    unpickle files (target_self p) = Ok child /\
    remaining (_create_capture files child) = [mkFrame 480 640 2].
Proof.
  split; [reflexivity|]. split; [reflexivity|]. split; [reflexivity|].
  destruct (resume_offset files video_at_2 2 eq_refl eq_refl eq_refl)
    as (p & child & Hp & _ & _ & Hchild & _ & _ & Hrem & _).
  exists p, child. split; [exact Hp|]. split; [exact Hchild | exact Hrem].
Defined.



(** A container of width zero: the size computed is (0, 0), [cv2.resize]
    raises, and [update] leaves with [cv2.error]; no image has been built,
    the widget shows none, and the flag has been cleared. *)
Example zero_width_update_fails :
  let '(self', queued, outcome) := update (resize video_at_2 0 480) [] in
  outcome = Raise Cv2Error /\ _image self' = None /\
  _image_needs_update self' = false /\
  option_map image (container self') = Some None.
Proof. vm_compute. repeat split. Qed.

(** The clip played to its end: the producer started at frame 0 delivers
    the three frames and the marker; one [update] on them counts three
    frames and returns false; the next one, on the empty pipe, returns
    true. *)
Example clip_playback :
  let evs := fst (_collect_frames files producer_at_0 open_sender still_clock) in
  let video_at_0 := set_frame_number (set_frame video_at_2 None) 0 in
  sent_messages evs = map Some clip ++ [None] /\
  let '(self', queued, alive) := update video_at_0 (sent_messages evs) in
  frame_number self' = 3 /\ queued = [] /\ alive = Ok false /\
  snd (update self' queued) = Ok true.
Proof. vm_compute. repeat split. Qed.

(** * Further properties of the controller *)

Lemma same_widget_refl (a : option Widget) : same_widget a a.
Proof. destruct a; cbn; auto. Qed.

Lemma same_widget_trans (a b c : option Widget) :
  same_widget a b -> same_widget b c -> same_widget a c.
Proof.
  destruct a, b, c; cbn; try tauto.
  intros [-> ->] [-> ->]. auto.
Qed.

(** What receiving frames leaves alone. *)
Lemma received_shell (frames : list Frame) :
  forall self,
    let self' := fold_left _on_frame_received frames self in
    config self' = config self /\
    _frame_receiver self' = _frame_receiver self /\
    _frame_sender self' = _frame_sender self /\
    _image self' = _image self /\
    _image_needs_update self'
    = (_image_needs_update self || negb (Nat.eqb (List.length frames) 0))%bool.
Proof.
  induction frames as [|f fs IH]; intros self.
  - cbn. rewrite orb_false_r. repeat split.
  - cbn [fold_left]. destruct (IH (_on_frame_received self f)) as (-> & -> & -> & -> & ->).
    cbn. rewrite orb_true_r. repeat split.
Qed.

(** What rebuilding the image leaves alone. *)
Lemma update_image_shell (self : CV2Video) :
  let self' := fst (_update_image self) in
  config self' = config self /\
  _frame_sender self' = _frame_sender self /\
  same_widget (container self) (container self') /\
  (synced self -> synced self').
Proof.
  unfold _update_image, synced.
  cbn [_frame container set_image_needs_update set_image].
  destruct (_frame self) as [f|];
    destruct (container self) as [w|] eqn:Hc;
    try (destruct (_get_optimal_size (geometry w) f) as [sz|];
         try destruct (cv2_resize f sz));
    cbn; rewrite ?Hc; repeat split; auto.
Qed.

Lemma refresh_shell (self : CV2Video) :
  let self' := fst (refresh self) in
  config self' = config self /\
  _frame_sender self' = _frame_sender self /\
  same_widget (container self) (container self') /\
  (synced self -> synced self').
Proof.
  unfold refresh. destruct (_image_needs_update self).
  - apply update_image_shell.
  - cbn. repeat split; auto. apply same_widget_refl.
Qed.

Lemma refresh_clean (self : CV2Video) :
  _image_needs_update (fst (refresh self)) = false.
Proof.
  unfold refresh. destruct (_image_needs_update self) eqn:H; [|exact H].
  apply update_image_fields.
Qed.

(** What [update] leaves alone, whatever is queued and however it ends. *)
Lemma update_shell (self : CV2Video) (queued : list Msg) :
  let self' := fst (fst (update self queued)) in
  config self' = config self /\
  _frame_collector self' = _frame_collector self /\
  _frame_receiver self' = _frame_receiver self /\
  _frame_sender self' = _frame_sender self /\
  same_widget (container self) (container self') /\
  (synced self -> synced self').
Proof.
  destruct (_frame_receiver self) as [conn|] eqn:Hr.
  - rewrite (update_spec self queued conn Hr). cbn [fst].
    set (received := fold_left _on_frame_received (frames_of queued) self).
    destruct (received_shell (frames_of queued) self) as (Hc & Hrc & Hs & Hi & _).
    fold received in Hc, Hrc, Hs, Hi.
    destruct (refresh_fields received) as (_ & _ & Hcol & Hrcv).
    destruct (refresh_shell received) as (Hc' & Hs' & Hw & Hsync).
    pose proof (received_container (frames_of queued) self) as Hcont.
    pose proof (received_collector (frames_of queued) self) as Hcoll.
    fold received in Hcont, Hcoll.
    split; [congruence|]. split; [congruence|]. split; [congruence|].
    split; [congruence|]. split; [rewrite <- Hcont; exact Hw|].
    intros Hsynced. apply Hsync. unfold synced in *.
    rewrite Hcont, Hi. exact Hsynced.
  - unfold update. rewrite Hr. cbn [fst].
    repeat split; auto. apply same_widget_refl.
Qed.

(** X1. [update] always leaves the image marked fresh, even when rebuilding
    it raised; a further [update] that finds the pipe empty then changes
    nothing and returns true. *)
Theorem update_then_idle (self : CV2Video) (queued : list Msg)
    (conn : Connection) :
  _frame_receiver self = Some conn ->
  let self' := fst (fst (update self queued)) in
  _image_needs_update self' = false /\
  update self' [] = (self', [], Ok true).
Proof.
  intros Hr self'.
  assert (Hclean : _image_needs_update self' = false).
  { unfold self'. rewrite (update_spec self queued conn Hr). cbn [fst].
    apply refresh_clean. }
  split; [exact Hclean|].
  destruct (update_shell self queued) as (_ & _ & Hrcv & _).
  fold self' in Hrcv.
  unfold update. rewrite Hrcv, Hr. cbn [drain]. unfold refresh.
  rewrite Hclean. reflexivity.
Qed.

Lemma update_then_idle_witness :
  _frame_receiver webcam = Some ReadEnd /\
  let self' := fst (fst (update webcam [Some (mkFrame 480 640 1)])) in
  _image_needs_update self' = false /\
  update self' [] = (self', [], Ok true).
Proof.
  split; [reflexivity|].
  exact (update_then_idle webcam [Some (mkFrame 480 640 1)] ReadEnd eq_refl).
Defined.

(** X2. Calling [play] on an object that is already playing starts no
    second producer and generates no event: [play] twice is [play] once. *)
Theorem play_twice (self : CV2Video) :
  play (fst (play self)) = (fst (play self), Ok tt) /\
  (is_playing self = true -> play self = (self, Ok tt)).
Proof.
  unfold play, is_playing.
  destruct (_frame_collector self) as [p|] eqn:Hc; cbn [fst].
  - rewrite Hc. auto.
  - cbn [container set_frame_collector].
    destruct (container self); cbn; split; auto; discriminate.
Qed.

(** X3. [update] never drops the producer handle, not even when it
    receives the end-of-stream marker: the object keeps counting as
    playing, and a following [play] does nothing. *)
Theorem playing_survives_end_of_stream (self : CV2Video)
    (queued : list Msg) (p : Process) :
  _frame_collector self = Some p ->
  let self' := fst (fst (update self queued)) in
  _frame_collector self' = Some p /\
  play self' = (self', Ok tt) /\
  toggle_play_pause self' = pause self'.
Proof.
  intros Hc self'.
  destruct (update_shell self queued) as (_ & Hcol & _).
  fold self' in Hcol. rewrite Hc in Hcol.
  split; [exact Hcol|].
  unfold play, toggle_play_pause. rewrite Hcol. auto.
Qed.

Lemma playing_survives_end_of_stream_witness :
  exists p,
    _frame_collector (fst (play webcam)) = Some p /\
    let self' := fst (fst (update (fst (play webcam)) [None])) in
    _frame_collector self' = Some p /\ play self' = (self', Ok tt).
Proof.
  eexists. split; [reflexivity|].
  destruct (playing_survives_end_of_stream (fst (play webcam)) [None] _ eq_refl)
    as (H1 & H2 & _).
  split; [exact H1 | exact H2].
Defined.

(** * Invariants over every sequence of steps *)

Lemma run_invariant (P : World -> Prop) :
  (forall op s, P s -> P (step op s)) ->
  forall ops s, P s -> P (run ops s).
Proof.
  intros Hstep ops. induction ops as [|op ops IH]; intros s Hs; [exact Hs|].
  cbn [run fold_left]. apply IH. apply Hstep. exact Hs.
Qed.

Lemma play_shell (self : CV2Video) :
  let self' := fst (play self) in
  config self' = config self /\
  _frame_receiver self' = _frame_receiver self /\
  _frame_sender self' = _frame_sender self /\
  (synced self -> synced self') /\
  (wired self -> wired self').
Proof.
  unfold play, synced, wired.
  destruct (_frame_collector self) as [p0|] eqn:Hcol; cbn.
  - rewrite Hcol. repeat split; auto.
  - destruct (container self) as [w|] eqn:Hc; cbn; rewrite ?Hc;
      repeat split; auto; intros _ q [= <-]; reflexivity.
Qed.

Lemma pause_shell (self : CV2Video) :
  let self' := fst (pause self) in
  config self' = config self /\
  _frame_receiver self' = _frame_receiver self /\
  _frame_sender self' = _frame_sender self /\
  frame_number self' = frame_number self /\
  (synced self -> synced self') /\
  (wired self -> wired self').
Proof.
  unfold pause, synced, wired.
  destruct (_frame_collector self) as [p0|] eqn:Hcol; cbn.
  - destruct (container self) as [w|] eqn:Hc; cbn; rewrite ?Hc, ?Hcol;
      repeat split; auto; intros _ q H; discriminate H.
  - rewrite Hcol. repeat split; auto.
Qed.

Lemma toggle_shell (self : CV2Video) :
  let self' := fst (toggle_play_pause self) in
  config self' = config self /\
  _frame_receiver self' = _frame_receiver self /\
  _frame_sender self' = _frame_sender self /\
  (synced self -> synced self') /\
  (wired self -> wired self').
Proof.
  unfold toggle_play_pause. destruct (_frame_collector self).
  - destruct (pause_shell self) as (? & ? & ? & _ & ? & ?). auto.
  - apply play_shell.
Qed.

Lemma reset_shell (self : CV2Video) :
  let self' := fst (reset self) in
  config self' = config self /\
  _frame_receiver self' = _frame_receiver self /\
  _frame_sender self' = _frame_sender self /\
  (frame_number self' = 0 \/ frame_number self' = frame_number self) /\
  (synced self -> synced self') /\
  (wired self -> wired self').
Proof.
  unfold reset. destruct (pause_shell self) as (Hc & Hr & Hs & Hn & Hsync & Hw).
  destruct (pause self) as [self1 [u|e]]; cbn [fst] in *.
  - unfold synced, wired in *. cbn. repeat split; auto.
  - repeat split; auto.
Qed.

Lemma resize_shell (self : CV2Video) (w h : Z) :
  let self' := resize self w h in
  config self' = config self /\
  _frame_receiver self' = _frame_receiver self /\
  _frame_sender self' = _frame_sender self /\
  _frame_collector self' = _frame_collector self /\
  (synced self -> synced self').
Proof.
  unfold resize, synced. destruct (container self) as [c|] eqn:Hc; cbn;
    rewrite ?Hc; repeat split; auto.
Qed.

(** What every step keeps. *)
Lemma step_shell (op : Op) (s : World) :
  config (video (step op s)) = config (video s) /\
  _frame_receiver (video (step op s)) = _frame_receiver (video s) /\
  _frame_sender (video (step op s)) = _frame_sender (video s) /\
  (synced (video s) -> synced (video (step op s))) /\
  (wired (video s) -> wired (video (step op s))).
Proof.
  destruct op; cbn [step video].
  - apply play_shell.
  - destruct (pause_shell (video s)) as (? & ? & ? & _ & ? & ?). auto.
  - apply toggle_shell.
  - destruct (reset_shell (video s)) as (? & ? & ? & _ & ? & ?). auto.
  - pose proof (update_shell (video s) (pipe s)) as (H1 & H2 & H3 & H4 & _ & H6).
    destruct (update (video s) (pipe s)) as [[self' pipe'] r].
    cbn [fst video] in *. repeat split; auto.
    unfold wired. rewrite H2, H4. auto.
  - repeat split; auto.
  - destruct (resize_shell (video s) w h) as (H1 & H2 & H3 & H4 & H5).
    repeat split; auto. unfold wired. rewrite H3, H4. auto.
Qed.

(** X4. The configuration an object was built with (source, backend
    preference, flip, requested size, pacing) and the two ends of its pipe
    never change, whatever is called on it and whatever arrives; and every
    producer handle it holds was given that same sending end, so that
    successive producers write to one pipe. *)
Theorem configuration_is_fixed (ops : list Op) (s : World) :
  wired (video s) ->
  config (video (run ops s)) = config (video s) /\
  _frame_receiver (video (run ops s)) = _frame_receiver (video s) /\
  _frame_sender (video (run ops s)) = _frame_sender (video s) /\
  forall p, _frame_collector (video (run ops s)) = Some p ->
            args p = _frame_sender (video s).
Proof.
  intros Hw.
  pose (P := fun s' : World =>
               config (video s') = config (video s) /\
               _frame_receiver (video s') = _frame_receiver (video s) /\
               _frame_sender (video s') = _frame_sender (video s) /\
               wired (video s')).
  assert (H : P (run ops s)).
  { apply run_invariant; [|unfold P; auto].
    intros op s' (Hc & Hr & Hs & Hwired).
    destruct (step_shell op s') as (Hc' & Hr' & Hs' & _ & Hw').
    unfold P. split; [congruence|]. split; [congruence|].
    split; [congruence | auto]. }
  destruct H as (Hc & Hr & Hs & Hwired).
  repeat split; auto. intros p Hp. rewrite <- Hs. apply Hwired. exact Hp.
Qed.

Lemma wired_webcam : wired webcam.
Proof. intros p H. discriminate H. Defined.

Lemma configuration_is_fixed_witness :
  wired webcam /\
  let s' := run [OpPlay; OpSend (Some (mkFrame 480 640 0)); OpUpdate;
                 OpPause; OpConfigure 640 480; OpPlay; OpReset; OpToggle]
              (mkWorld webcam []) in
  config (video s') = config webcam /\
  forall p, _frame_collector (video s') = Some p -> args p = Some WriteEnd.
Proof.
  split; [exact wired_webcam|]. intros s'.
  destruct (configuration_is_fixed
              [OpPlay; OpSend (Some (mkFrame 480 640 0)); OpUpdate;
               OpPause; OpConfigure 640 480; OpPlay; OpReset; OpToggle]
              (mkWorld webcam []) wired_webcam) as (Hc & _ & _ & Hp).
  split; [exact Hc | exact Hp].
Defined.

(** X5. The container always shows the image the object holds: if that
    is so to begin with, it stays so over every sequence of steps, also
    when rebuilding the image raised. *)
Theorem widget_shows_image (ops : list Op) (s : World) :
  synced (video s) -> synced (video (run ops s)).
Proof.
  apply (run_invariant (fun s' => synced (video s'))).
  intros op s' Hs. destruct (step_shell op s') as (_ & _ & _ & Hsync & _). auto.
Qed.

Lemma widget_shows_image_witness :
  synced webcam /\
  synced (video (run [OpSend (Some (mkFrame 480 640 0)); OpUpdate;
                      OpConfigure 640 0; OpSend (Some (mkFrame 480 640 1));
                      OpUpdate]
                   (mkWorld webcam []))).
Proof.
  assert (H : synced webcam) by reflexivity.
  split; [exact H|].
  exact (widget_shows_image _ (mkWorld webcam []) H).
Defined.

(** What a step does to the events of the container and to the playing
    state: nothing, or a "<<PLAY>>" on starting, or a "<<PAUSE>>" on
    stopping. *)
Lemma step_events (op : Op) (s : World) (w : Widget) :
  container (video s) = Some w ->
  exists w',
    container (video (step op s)) = Some w' /\
    ((events w' = events w /\
      is_playing (video (step op s)) = is_playing (video s)) \/
     (events w' = events w ++ ["<<PLAY>>"%string] /\
      is_playing (video s) = false /\
      is_playing (video (step op s)) = true) \/
     (events w' = events w ++ ["<<PAUSE>>"%string] /\
      is_playing (video s) = true /\
      is_playing (video (step op s)) = false)).
Proof.
  intros Hc.
  assert (Hplay : exists w',
            container (fst (play (video s))) = Some w' /\
            ((events w' = events w /\
              is_playing (fst (play (video s))) = is_playing (video s)) \/
             (events w' = events w ++ ["<<PLAY>>"%string] /\
              is_playing (video s) = false /\
              is_playing (fst (play (video s))) = true))).
  { unfold play, is_playing.
    destruct (_frame_collector (video s)) as [p|] eqn:Hcol; cbn.
    - rewrite Hcol. exists w. auto.
    - rewrite Hc. cbn. eexists. split; [reflexivity|]. right. auto. }
  assert (Hpause : exists w',
            container (fst (pause (video s))) = Some w' /\
            ((events w' = events w /\
              is_playing (fst (pause (video s))) = is_playing (video s)) \/
             (events w' = events w ++ ["<<PAUSE>>"%string] /\
              is_playing (video s) = true /\
              is_playing (fst (pause (video s))) = false))).
  { unfold pause, is_playing.
    destruct (_frame_collector (video s)) as [p|] eqn:Hcol; cbn.
    - rewrite Hc. cbn. eexists. split; [reflexivity|]. right. auto.
    - rewrite Hcol. exists w. auto. }
  destruct op; cbn [step video].
  - destruct Hplay as (w' & Hw' & [H|H]); exists w'; auto.
  - destruct Hpause as (w' & Hw' & [H|H]); exists w'; auto.
  - unfold toggle_play_pause.
    destruct (_frame_collector (video s)).
    + destruct Hpause as (w' & Hw' & [H|H]); exists w'; auto.
    + destruct Hplay as (w' & Hw' & [H|H]); exists w'; auto.
  - unfold reset. destruct Hpause as (w' & Hw' & H).
    destruct (pause (video s)) as [self1 [u|e]]; cbn [fst] in *;
      exists w'; (split; [exact Hw'|]); destruct H as [H|H]; auto.
  - pose proof (update_shell (video s) (pipe s)) as (_ & Hcol & _ & _ & Hsame & _).
    destruct (update (video s) (pipe s)) as [[self' pipe'] r].
    cbn [fst video] in *. rewrite Hc in Hsame. unfold same_widget in Hsame.
    destruct (container self') as [w'|]; [|contradiction].
    exists w'. split; [reflexivity|]. left. unfold is_playing. rewrite Hcol.
    split; [apply Hsame | reflexivity].
  - exists w. auto.
  - unfold resize, is_playing. rewrite Hc. cbn. eexists. split; [reflexivity|].
    left. auto.
Qed.

(** X6. The events generated on the container only grow, and
    "<<PLAY>>" and "<<PAUSE>>" take turns in them: over every sequence of
    steps a "<<PLAY>>" is generated exactly when a producer is started and
    a "<<PAUSE>>" exactly when one is stopped, so that the last event
    always tells whether the object is playing. *)
Theorem notifications_alternate (ops : list Op) (s : World) (w : Widget) :
  container (video s) = Some w ->
  alternating (events w) (is_playing (video s)) ->
  exists w' more,
    container (video (run ops s)) = Some w' /\
    events w' = events w ++ more /\
    alternating (events w') (is_playing (video (run ops s))).
Proof.
  intros Hc Halt.
  apply (run_invariant
           (fun s' => exists w' more,
                container (video s') = Some w' /\
                events w' = events w ++ more /\
                alternating (events w') (is_playing (video s')))).
  - intros op s' (w1 & more & Hc1 & Hev & Halt1).
    destruct (step_events op s' w1 Hc1) as (w2 & Hc2 & H).
    exists w2.
    destruct H as [[Hev2 Hp]|[(Hev2 & Hp & Hp')|(Hev2 & Hp & Hp')]].
    + exists more. rewrite Hev2, Hp. auto.
    + exists (more ++ ["<<PLAY>>"%string]).
      rewrite Hev2, Hp', app_assoc, <- Hev. rewrite Hp in Halt1.
      split; [exact Hc2|]. split; [reflexivity|]. apply alt_play. exact Halt1.
    + exists (more ++ ["<<PAUSE>>"%string]).
      rewrite Hev2, Hp', app_assoc, <- Hev. rewrite Hp in Halt1.
      split; [exact Hc2|]. split; [reflexivity|]. apply alt_pause. exact Halt1.
  - exists w, []. rewrite app_nil_r. auto.
Qed.

Lemma notifications_alternate_witness :
  container webcam = Some label /\
  alternating (events label) (is_playing webcam) /\
  exists w' more,
    container (video (run [OpPlay; OpPlay; OpToggle; OpPause; OpToggle; OpReset]
                        (mkWorld webcam []))) = Some w' /\
    events w' = events label ++ more /\
    alternating (events w')
      (is_playing (video (run [OpPlay; OpPlay; OpToggle; OpPause; OpToggle; OpReset]
                            (mkWorld webcam [])))).
Proof.
  split; [reflexivity|]. split; [exact alt_nil|].
  exact (notifications_alternate _ (mkWorld webcam []) label eq_refl alt_nil).
Defined.

Lemma frames_of_app (xs ys : list Msg) :
  frames_of (xs ++ ys) = frames_of xs ++ frames_of ys.
Proof. apply flat_map_app. Qed.

(** X7. Every frame the producer puts on the pipe is counted exactly
    once, as long as no producer is stopped: over a sequence of [play],
    [update], sends and resizes (no [pause], [toggle_play_pause] or
    [reset], which may terminate a producer in the middle of a send), the
    frame number plus the number of frames still queued grows by exactly
    the number of frames sent. *)
Theorem frames_counted_once (ops : list Op) :
  forall s,
    existsb stops_producer ops = false ->
    frame_number (video (run ops s))
    + Z.of_nat (List.length (frames_of (pipe (run ops s))))
    = frame_number (video s)
      + Z.of_nat (List.length (frames_of (pipe s)))
      + Z.of_nat (List.length (frames_sent ops)).
Proof.
  induction ops as [|op ops IH]; intros s Hstop.
  - cbn. lia.
  - cbn [existsb] in Hstop. apply orb_false_iff in Hstop.
    destruct Hstop as [Hop Hops].
    cbn [run fold_left].
    change (fold_left (fun s op => step op s) ops (step op s))
      with (run ops (step op s)).
    rewrite (IH (step op s) Hops).
    replace (frames_sent (op :: ops)) with (frames_sent [op] ++ frames_sent ops)
      by (unfold frames_sent; rewrite <- flat_map_app; reflexivity).
    rewrite length_app, Nat2Z.inj_add.
    assert (Hstep : frame_number (video (step op s))
                    + Z.of_nat (List.length (frames_of (pipe (step op s))))
                    = frame_number (video s)
                      + Z.of_nat (List.length (frames_of (pipe s)))
                      + Z.of_nat (List.length (frames_sent [op]))).
    { destruct op; cbn [step video pipe frames_sent flat_map app List.length];
        try discriminate Hop.
      - rewrite play_frame_number. lia.
      - destruct (_frame_receiver (video s)) as [conn|] eqn:Hr.
        + rewrite (update_spec (video s) (pipe s) conn Hr). cbn [video pipe].
          destruct (refresh_fields
                      (fold_left _on_frame_received (frames_of (pipe s)) (video s)))
            as (-> & _).
          rewrite received_frame_number. cbn [frames_of flat_map List.length]. lia.
        + unfold update. rewrite Hr. cbn [video pipe]. lia.
      - rewrite frames_of_app, length_app, Nat2Z.inj_add.
        destruct m as [f|]; cbn [frames_of flat_map app List.length]; lia.
      - rewrite resize_frame_number. lia. }
    lia.
Qed.

Lemma frames_counted_once_witness :
  let ops := [OpPlay; OpSend (Some (mkFrame 480 640 0)); OpUpdate;
              OpSend (Some (mkFrame 480 640 1)); OpConfigure 320 480;
              OpSend (Some (mkFrame 480 640 2)); OpSend None] in
  existsb stops_producer ops = false /\
  frame_number (video (run ops (mkWorld webcam [])))
  + Z.of_nat (List.length (frames_of (pipe (run ops (mkWorld webcam [])))))
  = 3.
Proof.
  intros ops. split; [reflexivity|].
  rewrite (frames_counted_once ops (mkWorld webcam []) eq_refl). reflexivity.
Defined.

(** X9. Pausing and playing again after [update] has received frames
    starts the new producer at the frame number reached: the old number
    plus the number of frames received. *)
Theorem resume_after_frames (self : CV2Video) (queued : list Msg)
    (conn : Connection) :
  _frame_receiver self = Some conn ->
  container self <> None ->
  let paused := fst (pause (fst (fst (update self queued)))) in
  exists p,
    _frame_collector paused = None /\
    _frame_collector (fst (play paused)) = Some p /\
    p_frame_number (target_self p)
    = frame_number self + Z.of_nat (List.length (frames_of queued)).
Proof.
  intros Hr Hc paused.
  set (self1 := fst (fst (update self queued))) in *.
  assert (Hn1 : frame_number self1
                = frame_number self + Z.of_nat (List.length (frames_of queued))).
  { unfold self1. rewrite (update_spec self queued conn Hr). cbn [fst].
    destruct (refresh_fields
                (fold_left _on_frame_received (frames_of queued) self)) as (-> & _).
    apply received_frame_number. }
  destruct (update_shell self queued) as (_ & _ & _ & _ & Hsame & _).
  fold self1 in Hsame.
  assert (Hc1 : exists w1, container self1 = Some w1).
  { unfold same_widget in Hsame. destruct (container self); [|contradiction].
    destruct (container self1) as [w1|]; [eauto | contradiction]. }
  destruct Hc1 as (w1 & Hc1).
  assert (Hpaused : _frame_collector paused = None /\
                    frame_number paused = frame_number self1).
  { unfold paused, pause. destruct (_frame_collector self1) eqn:Hcol.
    - rewrite Hc1. cbn. auto.
    - cbn. auto. }
  destruct Hpaused as (Hcol & Hn).
  eexists. split; [exact Hcol|].
  unfold play. rewrite Hcol. cbn [container set_frame_collector].
  destruct (container paused); cbn; (split; [reflexivity|]);
    cbn; rewrite Hn, Hn1; reflexivity.
Qed.

Lemma resume_after_frames_witness :
  _frame_receiver video_at_2 = Some ReadEnd /\
  container video_at_2 <> None /\
  exists p,
    _frame_collector
      (fst (play (fst (pause (fst (fst (update video_at_2
                                          [Some (mkFrame 480 640 2)])))))))
    = Some p /\
    p_frame_number (target_self p) = 3.
Proof.
  split; [reflexivity|].
  assert (Hc : container video_at_2 <> None) by discriminate.
  split; [exact Hc|].
  destruct (resume_after_frames video_at_2 [Some (mkFrame 480 640 2)] ReadEnd
              eq_refl Hc) as (p & _ & Hp & Hn).
  exists p. split; [exact Hp | exact Hn].
Defined.

(** X10. A resize of the container to a positive width and height alone
    makes the next [update] rebuild the image: with nothing on the pipe,
    a size with positive components is computed for the current frame
    (itself of positive dimensions) and the new geometry, the frame is
    resampled to it and shown, the events of the container being kept;
    the flag is cleared and [update] returns [True]. *)
Theorem resize_redraws (self : CV2Video) (w h : Z) (c0 : Widget)
    (f : Frame) (conn : Connection) :
  _frame_receiver self = Some conn ->
  container self = Some c0 ->
  _frame self = Some f ->
  dimension w -> dimension h -> frame_ok f ->
  exists sz,
    _get_optimal_size (mkContainer w h) f = Ok sz /\
    1 <= fst sz /\ 1 <= snd sz /\
    let img := mkImage f (flipped self) sz in
    let '(self', queued, outcome) := update (resize self w h) [] in
    _image self' = Some img /\
    container self' = Some (mkWidget (mkContainer w h) (Some img) (events c0)) /\
    _image_needs_update self' = false /\
    queued = [] /\ outcome = Ok true.
Proof.
  intros Hr Hc Hf Hw Hh [Hcols Hrows].
  destruct (resize_succeeds (mkContainer w h) f Hw Hh Hcols Hrows)
    as (sz & Hsz & Hsz1 & Hsz2 & Hres).
  exists sz. split; [exact Hsz|]. split; [exact Hsz1|]. split; [exact Hsz2|].
  unfold update, resize. rewrite Hc.
  cbn -[_get_optimal_size cv2_resize]. rewrite Hr.
  cbn -[_get_optimal_size cv2_resize].
  unfold refresh, _update_image.
  cbn -[_get_optimal_size cv2_resize]. rewrite Hf.
  cbn -[_get_optimal_size cv2_resize]. rewrite Hsz, Hres.
  cbn -[_get_optimal_size cv2_resize].
  repeat split.
Qed.

Lemma resize_redraws_witness :
  _frame_receiver video_at_2 = Some ReadEnd /\
  container video_at_2 = Some label /\
  _frame video_at_2 = Some (mkFrame 480 640 1) /\
  dimension 320 /\ dimension 480 /\ frame_ok (mkFrame 480 640 1) /\
  _image (fst (fst (update (resize video_at_2 320 480) [])))
  = Some (mkImage (mkFrame 480 640 1) false (320, 240)).
Proof.
  assert (H1 : dimension 320) by (unfold dimension; lia).
  assert (H2 : dimension 480) by (unfold dimension; lia).
  assert (H3 : frame_ok (mkFrame 480 640 1))
    by (unfold frame_ok, dimension; cbn [cols rows]; lia).
  split; [reflexivity|]. split; [reflexivity|]. split; [reflexivity|].
  split; [exact H1|]. split; [exact H2|]. split; [exact H3|].
  destruct (resize_redraws video_at_2 320 480 label (mkFrame 480 640 1)
              ReadEnd eq_refl eq_refl eq_refl H1 H2 H3)
    as (sz & Hsz & _ & _ & H).
  vm_compute in Hsz. injection Hsz as <-.
  cbv zeta in H.
  destruct (update (resize video_at_2 320 480) []) as [[self' queued] outcome].
  exact (proj1 H).
Defined.

(** * Equal aspect ratios in exact arithmetic *)

(** X11. A frame whose width and height are in exactly the proportion of
    the container's (in integers: [cols * max_height = rows * max_width])
    is given the container's size as it is, whatever the rounding of the
    two divisions. *)
Theorem proportional_frame_fills (c : Container) (f : Frame) :
  dimension (winfo_width c) -> dimension (winfo_height c) ->
  dimension (cols f) -> dimension (rows f) ->
  cols f * winfo_height c = rows f * winfo_width c ->
  _get_optimal_size c f = Ok (winfo_width c, winfo_height c).
Proof.
  intros Hw Hh Hc Hr Hprop.
  destruct (optimal_size_cases c f Hw Hh Hc Hr)
    as (v & t & Hv & Ht & _ & Heq & _).
  apply Heq.
  rewrite (int_truediv_proportional _ _ _ _ Hc Hr Hw Hh Hprop), Ht in Hv.
  injection Hv as <-.
  destruct (int_truediv_dimension _ _ Hw Hh) as (t' & Ht' & Hn & _).
  rewrite Ht in Ht'. injection Ht' as <-.
  apply eqb_pos_normal_refl. exact Hn.
Qed.

(** A 1920x1080 frame in a 1280x720 container. *)
Lemma proportional_frame_fills_witness :
  dimension 1280 /\ dimension 720 /\ dimension 1920 /\ dimension 1080 /\
  1920 * 720 = 1080 * 1280 /\
  _get_optimal_size (mkContainer 1280 720) (mkFrame 1080 1920 0)
  = Ok (1280, 720).
Proof.
  assert (H1 : dimension 1280) by (unfold dimension; lia).
  assert (H2 : dimension 720) by (unfold dimension; lia).
  assert (H3 : dimension 1920) by (unfold dimension; lia).
  assert (H4 : dimension 1080) by (unfold dimension; lia).
  split; [exact H1|]. split; [exact H2|]. split; [exact H3|].
  split; [exact H4|]. split; [reflexivity|].
  exact (proportional_frame_fills (mkContainer 1280 720) (mkFrame 1080 1920 0)
           H1 H2 H3 H4 eq_refl).
Defined.

(** * Degenerate geometry *)

Lemma optimal_size_zero_height (c : Container) (f : Frame) :
  dimension (cols f) -> dimension (rows f) -> winfo_height c = 0 ->
  _get_optimal_size c f = Raise ZeroDivisionError.
Proof.
  intros Hc Hr Hh. unfold _get_optimal_size.
  destruct (int_truediv_dimension _ _ Hc Hr) as (v & -> & _).
  cbn [bind]. rewrite Hh. reflexivity.
Qed.

(** X12. What the size computation does with a degenerate input: a frame
    without rows or a container of height zero raises
    [ZeroDivisionError]; a container of width zero and positive height
    gets the size (0, 0). *)
Theorem degenerate_geometry (c : Container) (f : Frame) :
  (rows f = 0 -> _get_optimal_size c f = Raise ZeroDivisionError) /\
  (dimension (cols f) -> dimension (rows f) -> winfo_height c = 0 ->
   _get_optimal_size c f = Raise ZeroDivisionError) /\
  (dimension (cols f) -> dimension (rows f) ->
   winfo_width c = 0 -> dimension (winfo_height c) ->
   _get_optimal_size c f = Ok (0, 0)).
Proof.
  split; [|split].
  - intros H. unfold _get_optimal_size, Py.int_truediv. rewrite H. reflexivity.
  - apply optimal_size_zero_height.
  - intros Hc Hr Hw Hh. unfold _get_optimal_size.
    destruct (int_truediv_dimension _ _ Hc Hr) as (v & -> & Hn & _).
    cbn [bind]. rewrite Hw.
    destruct Hh as [Hh _].
    destruct (winfo_height c) as [|ph|ph]; try lia.
    destruct (is_pos_normal_inv v Hn) as (m & e & -> & _).
    reflexivity.
Qed.

Lemma degenerate_geometry_witness :
  _get_optimal_size (mkContainer 800 600) (mkFrame 0 640 0)
  = Raise ZeroDivisionError /\
  _get_optimal_size (mkContainer 800 0) (mkFrame 480 640 0)
  = Raise ZeroDivisionError /\
  _get_optimal_size (mkContainer 0 600) (mkFrame 480 640 0) = Ok (0, 0).
Proof.
  assert (H3 : dimension 640) by (unfold dimension; lia).
  assert (H4 : dimension 480) by (unfold dimension; lia).
  assert (H6 : dimension 600) by (unfold dimension; lia).
  split; [|split].
  - exact (proj1 (degenerate_geometry (mkContainer 800 600) (mkFrame 0 640 0))
             eq_refl).
  - exact (proj1 (proj2 (degenerate_geometry (mkContainer 800 0)
                           (mkFrame 480 640 0))) H3 H4 eq_refl).
  - exact (proj2 (proj2 (degenerate_geometry (mkContainer 0 600)
                           (mkFrame 480 640 0))) H3 H4 eq_refl H6).
Defined.

(** X13. With a container of height zero, an [update] that has an image
    to rebuild lets [ZeroDivisionError] out; by then the pipe has been
    emptied and every frame counted, the image is marked fresh and the
    image held is the old one. *)
Theorem update_raises_on_zero_height (self : CV2Video) (queued : list Msg)
    (conn : Connection) (w : Widget) (f : Frame) :
  _frame_receiver self = Some conn ->
  container self = Some w ->
  winfo_height (geometry w) = 0 ->
  last (map Some (frames_of queued)) (_frame self) = Some f ->
  frame_ok f ->
  _image_needs_update self = true \/ frames_of queued <> [] ->
  snd (update self queued) = Raise ZeroDivisionError /\
  snd (fst (update self queued)) = [] /\
  frame_number (fst (fst (update self queued)))
  = frame_number self + Z.of_nat (List.length (frames_of queued)) /\
  _image_needs_update (fst (fst (update self queued))) = false /\
  _image (fst (fst (update self queued))) = _image self.
Proof.
  intros Hr Hc Hh Hlast [Hcols Hrows] Hdirty.
  rewrite (update_spec self queued conn Hr). cbn [fst snd].
  set (received := fold_left _on_frame_received (frames_of queued) self).
  destruct (received_shell (frames_of queued) self) as (_ & _ & _ & Himg & Hflag).
  fold received in Himg, Hflag.
  pose proof (received_frame (frames_of queued) self) as Hf.
  pose proof (received_container (frames_of queued) self) as Hcont.
  pose proof (received_frame_number (frames_of queued) self) as Hn.
  fold received in Hf, Hcont, Hn. rewrite Hlast in Hf. rewrite Hc in Hcont.
  assert (Hstale : _image_needs_update received = true).
  { rewrite Hflag. destruct Hdirty as [->|Hne]; [reflexivity|].
    destruct (frames_of queued); [contradiction|].
    cbn. apply orb_true_r. }
  unfold refresh. rewrite Hstale. unfold _update_image.
  cbn [_frame container set_image_needs_update set_image].
  rewrite Hf, Hcont, (optimal_size_zero_height (geometry w) f Hcols Hrows Hh).
  cbn. repeat split; auto.
Qed.

Lemma update_raises_on_zero_height_witness :
  frame_ok (mkFrame 480 640 1) /\
  snd (update (resize webcam 800 0) [Some (mkFrame 480 640 1)])
  = Raise ZeroDivisionError /\
  frame_number (fst (fst (update (resize webcam 800 0)
                            [Some (mkFrame 480 640 1)]))) = 1.
Proof.
  assert (Hok : frame_ok (mkFrame 480 640 1))
    by (unfold frame_ok, dimension; cbn; lia).
  assert (Hne : frames_of [Some (mkFrame 480 640 1)] <> []) by discriminate.
  split; [exact Hok|].
  destruct (update_raises_on_zero_height (resize webcam 800 0)
              [Some (mkFrame 480 640 1)] ReadEnd
              (mkWidget (mkContainer 800 0) None [])
              (mkFrame 480 640 1) eq_refl eq_refl eq_refl eq_refl Hok
              (or_intror Hne)) as (Ho & _ & Hn & _).
  split; [exact Ho | exact Hn].
Defined.

(** * Further properties of the producer *)

Lemma read_loop_events (sender : Sender) (time : nat -> Py.float)
    (frames : list Frame) :
  forall pacing sent,
    let evs := fst (fst (read_loop frames sender time pacing sent)) in
    filter is_release evs = [] /\ filter is_capture evs = [].
Proof.
  induction frames as [|f rest IH]; intros pacing sent; cbn [read_loop].
  - destruct (closed sender); [split; reflexivity|].
    destruct (peer_open sender sent); split; reflexivity.
  - destruct (closed sender); [split; reflexivity|].
    destruct (peer_open sender sent); [|split; reflexivity].
    assert (Hp : filter is_release (snd (pace time pacing)) = [] /\
                 filter is_capture (snd (pace time pacing)) = []).
    { destruct pacing as [p|]; cbn [pace snd]; [|split; reflexivity].
      destruct (Py.gt0 _); split; reflexivity. }
    destruct (pace time pacing) as [pacing' slept]. cbn [snd] in Hp.
    specialize (IH pacing' (S sent)).
    destruct (read_loop rest sender time pacing' (S sent)) as [[evs out] final].
    cbn [fst] in *. cbn [filter is_release is_capture].
    rewrite !filter_app. destruct Hp as [-> ->], IH as [-> ->].
    split; reflexivity.
Qed.

Lemma capture_events_filter (self : CV2Video) (capture : Capture) :
  filter is_release (capture_events self capture) = [] /\
  filter is_capture (capture_events self capture)
  = [EvCapture (filename_or_index self) (api_preference self)].
Proof.
  unfold capture_events. cbn [filter is_release is_capture].
  induction (settings capture) as [|st l [IH1 IH2]]; [split; reflexivity|].
  cbn [map filter is_release is_capture]. split; [exact IH1|].
  exact IH2.
Qed.

(** X14. Every run of the producer opens one capture and releases it
    exactly once, as the last thing it does: when the loop ends, when the
    sender is found closed, and when a send raises. *)
Theorem capture_released_once (backend : Backend) (self : CV2Video)
    (sender : Sender) (time : nat -> Py.float) :
  let evs := fst (_collect_frames backend self sender time) in
  filter is_capture evs
  = [EvCapture (filename_or_index self) (api_preference self)] /\
  hd_error evs = Some (EvCapture (filename_or_index self) (api_preference self)) /\
  filter is_release evs = [EvRelease] /\
  exists before, evs = before ++ [EvRelease].
Proof.
  unfold _collect_frames.
  set (capture := _create_capture backend self).
  destruct (capture_events_filter self capture) as [Hrel Hcap].
  destruct (if use_fps_delay self then _ else _) as [pacing|e].
  - pose proof (read_loop_events sender time (remaining capture) pacing 0) as Hloop.
    destruct (read_loop (remaining capture) sender time pacing 0)
      as [[evs out] final].
    cbn [fst] in *. destruct Hloop as [Hlr Hlc].
    split; [rewrite !filter_app, Hcap, Hlc; reflexivity|].
    split; [reflexivity|].
    split; [rewrite !filter_app, Hrel, Hlr; reflexivity|].
    exists (capture_events self capture ++ evs).
    rewrite <- app_assoc. reflexivity.
  - cbn [fst].
    split; [rewrite !filter_app, Hcap; reflexivity|].
    split; [reflexivity|].
    split; [rewrite !filter_app, Hrel; reflexivity|].
    exists (capture_events self capture). reflexivity.
Qed.

(** X15. The producer neither drops nor reorders nor repeats: whatever
    the pacing, the clock and the fate of the pipe, the messages it sent
    are a beginning of "the frames the capture had left, then the marker";
    and when the marker was sent, everything was sent and the producer
    returned. *)
Theorem producer_sends_in_order (backend : Backend) (self : CV2Video)
    (sender : Sender) (time : nat -> Py.float) :
  let capture := _create_capture backend self in
  let '(evs, out) := _collect_frames backend self sender time in
  (exists rest,
     map Some (remaining capture) ++ [None] = sent_messages evs ++ rest) /\
  (In None (sent_messages evs) ->
   sent_messages evs = map Some (remaining capture) ++ [None] /\
   out = Returned).
Proof.
  intros capture.
  assert (Hloop : forall frames pacing sent,
            let '(evs, out, _) := read_loop frames sender time pacing sent in
            (exists rest, map Some frames ++ [None] = sent_messages evs ++ rest) /\
            (In None (sent_messages evs) ->
             sent_messages evs = map Some frames ++ [None] /\ out = Returned)).
  { induction frames as [|f rest IH]; intros pacing sent; cbn [read_loop].
    - destruct (closed sender); [split; [eexists; reflexivity | intros []]|].
      destruct (peer_open sender sent); cbn.
      + split; [exists []; reflexivity | auto].
      + split; [eexists; reflexivity | intros []].
    - destruct (closed sender); [split; [eexists; reflexivity | intros []]|].
      destruct (peer_open sender sent);
        [|split; [eexists; reflexivity | intros []]].
      pose proof (pace_sends_nothing time pacing) as Hp.
      destruct (pace time pacing) as [pacing' slept]. cbn [snd] in Hp.
      specialize (IH pacing' (S sent)).
      destruct (read_loop rest sender time pacing' (S sent)) as [[evs out] final].
      destruct IH as [(more & Hmore) Hnone].
      change (EvRead :: EvSend (Some f) :: slept ++ evs)
        with ([EvRead; EvSend (Some f)] ++ slept ++ evs).
      rewrite !sent_messages_app, Hp.
      cbn [sent_messages flat_map app map].
      split.
      + exists more. rewrite Hmore. reflexivity.
      + intros [H|H]; [discriminate H|].
        destruct (Hnone H) as [-> ->]. auto. }
  unfold _collect_frames. fold capture.
  destruct (capture_events_quiet self capture) as [_ Hquiet].
  destruct (if use_fps_delay self then _ else _) as [pacing|e].
  - specialize (Hloop (remaining capture) pacing 0%nat).
    destruct (read_loop (remaining capture) sender time pacing 0)
      as [[evs out] final].
    rewrite !sent_messages_app, Hquiet.
    cbn [sent_messages flat_map app]. rewrite app_nil_r. exact Hloop.
  - rewrite sent_messages_app, Hquiet. cbn.
    split; [eexists; reflexivity | intros []].
Qed.

(** X16. Without [use_fps_delay] the producer never sleeps; with it, it
    sleeps at most once for each frame it sent. *)
Theorem sleeps_bounded (backend : Backend) (self : CV2Video)
    (sender : Sender) (time : nat -> Py.float) :
  let evs := fst (_collect_frames backend self sender time) in
  (use_fps_delay self = false -> sleeps evs = []) /\
  (List.length (sleeps evs) <= List.length (frames_of (sent_messages evs)))%nat.
Proof.
  assert (Hloop : forall frames pacing sent,
            let evs := fst (fst (read_loop frames sender time pacing sent)) in
            (pacing = None -> sleeps evs = []) /\
            (List.length (sleeps evs)
             <= List.length (frames_of (sent_messages evs)))%nat).
  { induction frames as [|f rest IH]; intros pacing sent; cbn [read_loop].
    - destruct (closed sender); [cbn; auto|].
      destruct (peer_open sender sent); cbn; auto.
    - destruct (closed sender); [cbn; auto|].
      destruct (peer_open sender sent); [|cbn; auto].
      assert (Hp : (fst (pace time pacing) = None <-> pacing = None) /\
                   (pacing = None -> sleeps (snd (pace time pacing)) = []) /\
                   (List.length (sleeps (snd (pace time pacing))) <= 1)%nat /\
                   sent_messages (snd (pace time pacing)) = []).
      { destruct pacing as [p|]; cbn [pace fst snd].
        - split; [split; discriminate|]. split; [discriminate|].
          destruct (Py.gt0 _); cbn; auto.
        - cbn. repeat split; auto. }
      destruct (pace time pacing) as [pacing' slept]. cbn [fst snd] in Hp.
      destruct Hp as (Hnone & Hquiet & Hone & Hsent).
      specialize (IH pacing' (S sent)).
      destruct (read_loop rest sender time pacing' (S sent)) as [[evs out] final].
      cbn [fst] in *. destruct IH as [IH1 IH2].
      change (EvRead :: EvSend (Some f) :: slept ++ evs)
        with ([EvRead; EvSend (Some f)] ++ slept ++ evs).
      rewrite !sleeps_app, !sent_messages_app, Hsent.
      change (sleeps [EvRead; EvSend (Some f)]) with (@nil Py.float).
      change (sent_messages [EvRead; EvSend (Some f)]) with [Some f].
      cbn [app].
      change (frames_of (Some f :: sent_messages evs))
        with (f :: frames_of (sent_messages evs)).
      cbn [List.length]. rewrite length_app. split.
      + intros Hpn. rewrite (Hquiet Hpn), (IH1 (proj2 Hnone Hpn)). reflexivity.
      + lia. }
  unfold _collect_frames.
  set (capture := _create_capture backend self).
  destruct (capture_events_quiet self capture) as [Hq1 Hq2].
  destruct (use_fps_delay self) eqn:Hdelay.
  - rewrite frame_interval_spec. cbn [bind].
    specialize (Hloop (remaining capture)
                  (Some (mkPacing
                           (if Py.is_zero (fps capture) then one
                            else SFdiv Py.prec Py.emax one (fps capture))
                           (time 0%nat) 1)) 0%nat).
    destruct (read_loop _ _ _ _ _) as [[evs out] final]. cbn [fst] in *.
    rewrite !sleeps_app, !sent_messages_app, Hq1, Hq2.
    cbn [sleeps sent_messages flat_map app]. rewrite !app_nil_r.
    split; [discriminate | apply Hloop].
  - specialize (Hloop (remaining capture) None 0%nat).
    destruct (read_loop _ _ _ _ _) as [[evs out] final]. cbn [fst] in *.
    rewrite !sleeps_app, !sent_messages_app, Hq1, Hq2.
    cbn [sleeps sent_messages flat_map app]. rewrite !app_nil_r.
    destruct Hloop as [H1 H2]. split; [intros _; apply H1; reflexivity | exact H2].
Qed.

(** * Rebuilding the object in the producer *)

(** The capture an object opens depends on what [__reduce__] carries
    only. *)
Lemma create_capture_reduce (backend : Backend) (a b : CV2Video) :
  __reduce__ a = __reduce__ b ->
  _create_capture backend a = _create_capture backend b.
Proof.
  unfold __reduce__, _create_capture. intros [= -> -> _ -> -> _ ->].
  reflexivity.
Qed.

(** X17. Pickling round trip: the object rebuilt in the producer process
    from [__reduce__] pickles to the same arguments and opens the same
    capture as the original would; it has no container, no pipe end, no
    frame and no producer of its own, and rebuilding it does not touch the
    backend, not even for a file name. *)
Theorem reduce_round_trip (backend : Backend) (self : CV2Video) :
  exists child,
    __init__ false backend None (filename_or_index self) (api_preference self)
      (flipped self) (width self) (height self) (use_fps_delay self)
      (frame_number self) = (Ok child, []) /\
    unpickle backend (__reduce__ self) = Ok child /\
    __reduce__ child = __reduce__ self /\
    _create_capture backend child = _create_capture backend self /\
    container child = None /\
    _frame_receiver child = None /\ _frame_sender child = None /\
    _frame child = None /\ _frame_collector child = None.
Proof.
  eexists. split; [reflexivity|]. split; [reflexivity|].
  split; [reflexivity|].
  split; [apply create_capture_reduce; reflexivity|].
  repeat split.
Qed.

Lemma hd_error_sent (frames : list Frame) :
  hd_error (map Some frames ++ [None]) = Some (hd_error frames).
Proof. destruct frames; reflexivity. Qed.

(** X18. The frame the constructor reads eagerly from a file is read
    again by the producer: after construction and [play], the first
    message the producer sends is the very frame the constructor stored
    (and the end-of-stream marker if it stored none). *)
Theorem first_frame_sent_again (backend : Backend) (w : Widget)
    (name : string) (api : Z) (flip : bool) (wd ht : option Z)
    (delay : bool) (n : Z) (time : nat -> Py.float) :
  exists self p child evs,
    fst (__init__ true backend (Some w) (Filename name) api flip wd ht delay n)
    = Ok self /\
    _frame_collector (fst (play self)) = Some p /\
    unpickle backend (target_self p) = Ok child /\
    _collect_frames backend child open_sender time = (evs, Returned) /\
    hd_error (sent_messages evs) = Some (_frame self).
Proof.
  set (self0 := mkCV2Video (Some w) (Filename name) api flip wd ht delay n
                  None None None false (Some ReadEnd) (Some WriteEnd)).
  set (capture := _create_capture backend self0).
  assert (Hinit : exists self,
            fst (__init__ true backend (Some w) (Filename name) api flip wd ht
                   delay n) = Ok self /\
            __reduce__ self = __reduce__ self0 /\
            _frame_collector self = None /\
            _frame self = hd_error (remaining capture)).
  { unfold __init__. cbn [is_str]. unfold _collect_first_frame. fold self0.
    fold capture. unfold capture_read.
    destruct (remaining capture) as [|frame rest]; eexists;
      (split; [reflexivity|]); repeat split. }
  destruct Hinit as (self & Hself & Hred & Hcol & Hframe).
  destruct (unpickle_reduce backend self) as (child & Hchild & _).
  assert (Hcap : _create_capture backend child = capture).
  { unfold capture. apply create_capture_reduce. rewrite <- Hred.
    unfold unpickle in Hchild. cbn in Hchild. injection Hchild as <-.
    reflexivity. }
  destruct (collect_frames_open backend child time)
    as (evs & rest & Hrun & _ & Hsent).
  exists self, (mkProcess (__reduce__ self) (_frame_sender self)), child, evs.
  split; [exact Hself|]. split.
  { unfold play. rewrite Hcol. cbn [container set_frame_collector].
    destruct (container self); reflexivity. }
  split; [exact Hchild|]. split; [exact Hrun|].
  rewrite Hsent, Hcap, hd_error_sent, Hframe. reflexivity.
Qed.

(** X19. A producer whose frame number is not positive does not move the
    capture: on a pipe that stays open it sends the whole source, first
    frame first, then the marker. *)
Theorem producer_from_start (backend : Backend) (self : CV2Video)
    (time : nat -> Py.float) :
  frame_number self <= 0 ->
  exists evs,
    _collect_frames backend self open_sender time = (evs, Returned) /\
    sent_messages evs
    = map Some (stream backend (filename_or_index self) (api_preference self))
      ++ [None].
Proof.
  intros Hn.
  destruct (collect_frames_open backend self time)
    as (evs & rest & Hrun & _ & Hsent).
  exists evs. split; [exact Hrun|]. rewrite Hsent. do 2 f_equal.
  unfold _create_capture.
  assert (Hltb : (0 <? frame_number self) = false) by (apply Z.ltb_ge; exact Hn).
  rewrite Hltb. destruct (width self), (height self); reflexivity.
Qed.

Lemma producer_from_start_witness :
  frame_number producer_at_0 <= 0 /\
  exists evs,
    _collect_frames files producer_at_0 open_sender still_clock
    = (evs, Returned) /\
    sent_messages evs = map Some clip ++ [None].
Proof.
  assert (H : frame_number producer_at_0 <= 0) by (cbn; lia).
  split; [exact H|].
  exact (producer_from_start files producer_at_0 still_clock H).
Defined.

(** * Further properties of the playing state and the frame number *)

(** X20. On an object that has its container, [toggle_play_pause] flips
    the playing state: it starts a producer when none is held and stops
    the one held otherwise, and two calls in a row end in the state they
    started from, the frame number unchanged. *)
Theorem toggle_flips (self : CV2Video) :
  container self <> None ->
  is_playing (fst (toggle_play_pause self)) = negb (is_playing self) /\
  is_playing (fst (toggle_play_pause (fst (toggle_play_pause self))))
  = is_playing self /\
  frame_number (fst (toggle_play_pause (fst (toggle_play_pause self))))
  = frame_number self.
Proof.
  intros Hc.
  assert (Hflip : forall s, container s <> None ->
            is_playing (fst (toggle_play_pause s)) = negb (is_playing s) /\
            container (fst (toggle_play_pause s)) <> None).
  { intros s Hs. unfold toggle_play_pause, play, pause, is_playing.
    destruct (_frame_collector s) as [p|] eqn:Hcol;
      cbn [container set_frame_collector];
      destruct (container s) as [w|]; try contradiction; cbn;
      split; auto; discriminate. }
  destruct (Hflip self Hc) as [H1 Hc1].
  destruct (Hflip _ Hc1) as [H2 _].
  split; [exact H1|]. split.
  - rewrite H2, H1. apply negb_involutive.
  - rewrite !toggle_frame_number. reflexivity.
Qed.

Lemma toggle_flips_witness :
  container webcam <> None /\
  is_playing (fst (toggle_play_pause webcam)) = true /\
  is_playing (fst (toggle_play_pause (fst (toggle_play_pause webcam)))) = false.
Proof.
  assert (Hc : container webcam <> None) by discriminate.
  split; [exact Hc|].
  destruct (toggle_flips webcam Hc) as (H1 & H2 & _).
  split; [exact H1 | exact H2].
Defined.

(** X21. A frame number that is not negative stays so over every sequence
    of steps, [reset] included. *)
Theorem frame_number_nonnegative (ops : list Op) (s : World) :
  0 <= frame_number (video s) -> 0 <= frame_number (video (run ops s)).
Proof.
  apply (run_invariant (fun s' => 0 <= frame_number (video s'))).
  intros op s' Hs.
  destruct (is_reset op) eqn:Hop.
  - destruct op; try discriminate Hop. cbn [step video].
    destruct (reset_shell (video s')) as (_ & _ & _ & [H|H] & _); lia.
  - pose proof (step_frame_number op s' Hop). lia.
Qed.

Lemma frame_number_nonnegative_witness :
  0 <= frame_number webcam /\
  0 <= frame_number
         (video (run [OpPlay; OpSend (Some (mkFrame 480 640 0)); OpUpdate;
                      OpReset; OpSend (Some (mkFrame 480 640 1)); OpUpdate]
                   (mkWorld webcam []))).
Proof.
  assert (H : 0 <= frame_number webcam) by (cbn; lia).
  split; [exact H|].
  exact (frame_number_nonnegative _ (mkWorld webcam []) H).
Defined.
